(* Verification development for remarkable-highlights
   (src/remarkable_highlights/parsing.py and extract.py).

   Python values are embedded as follows: bytes as Stdlib strings (a list of
   8-bit characters), a Python str as the bytes of its UTF-8 encoding,
   Python floats as exact rationals Q, Python ints as Z, raised exceptions
   as the [Raise] branch of the error monad [Result], dicts keyed by page
   number as stdpp's gmap.  shapely's point location follows the GEOS
   algorithms it calls. *)

From Stdlib Require Import QArith Qabs Qminmax Lqa ZArith Ascii String List Bool Lia.
From stdpp Require Import base list gmap strings.

Import ListNotations.
Open Scope string_scope.

(* ------------------------------------------------------------------ *)
(** * Exceptions and the error monad *)

(** The Python exceptions the modelled code can raise; [BadParameter] is
    click's error for an option value it rejects. *)
Inductive PyError :=
| AssertionError
| NotImplementedError
| KeyError
| ValueError
| IndexError
| ZeroDivisionError
| TypeError
| UnicodeDecodeError
| BadParameter.

(** A computation that either returns or raises. *)
Inductive Result (A : Type) :=
| Ok (a : A)
| Raise (e : PyError).
Arguments Ok {A} a.
Arguments Raise {A} e.

#[global] Instance result_ret : MRet Result := fun A a => Ok a.
#[global] Instance result_bind : MBind Result :=
  fun A B f m => match m with Ok a => f a | Raise e => Raise e end.

(** [x ← m; k] is stdpp's do-notation over these instances. *)
Fixpoint mapM {A B} (f : A -> Result B) (l : list A) : Result (list B) :=
  match l with
  | [] => Ok []
  | x :: l' => y ← f x; ys ← mapM f l'; Ok (y :: ys)
  end.

(* ------------------------------------------------------------------ *)
(** * itertools.groupby *)

Module GroupBy.

(** [groupby key l] is the list of [(k, group)] pairs that
    [itertools.groupby(l, key)] yields: maximal blocks of consecutive
    elements with equal (boolean) key, in order.  Written as a right fold:
    an element joins the first group of the rest when the keys agree. *)
Definition group_step {A} (key : A -> bool) (x : A)
    (acc : list (bool * list A)) : list (bool * list A) :=
  match acc with
  | (k, g) :: rest =>
      if Bool.eqb (key x) k then (k, x :: g) :: rest
      else (key x, [x]) :: (k, g) :: rest
  | [] => [(key x, [x])]
  end.

Definition groupby {A} (key : A -> bool) (l : list A) : list (bool * list A) :=
  fold_right (group_step key) [] l.

End GroupBy.
Import GroupBy.

(* ------------------------------------------------------------------ *)
(** * Run merger: extract_text_highlights, lines 156-173 *)

Module RunMerger.

(** A word paired with the value of [is_highlighted] on its box.
    [is_highlighted] is pure, so evaluating it once per word, as here, is
    the same as the [groupby] key evaluating it during the iteration. *)
Abbreviation flagged_word := (string * bool)%type.

(** runs = [(is_selected, list(map(itemgetter(0), words)))
            for is_selected, words in groupby(word_boxes, key=...)] *)
Definition runs (word_boxes : list flagged_word) : list (bool * list string) :=
  map (fun '(sel, ws) => (sel, map fst ws)) (groupby snd word_boxes).

(** marked_skips = [(is_selected or len(run) <= max_skip_len, run) ...] *)
Definition marked_skips (rs : list (bool * list string)) (max_skip_len : Z)
    : list (bool * list string) :=
  map (fun '(sel, run) => (sel || (Z.of_nat (length run) <=? max_skip_len)%Z, run)) rs.

(** merged_runs = [list(chain.from_iterable(map(itemgetter(1), g)))
                   for is_selected, g in groupby(marked_skips, key=itemgetter(0))
                   if is_selected] *)
Definition merged_runs (ms : list (bool * list string)) : list (list string) :=
  map (fun '(_, g) => concat (map snd g)) (List.filter fst (groupby fst ms)).

(** The word lists of the merged runs, before the final join. *)
Definition extract_word_runs (word_boxes : list flagged_word) (max_skip_len : Z)
    : list (list string) :=
  merged_runs (marked_skips (runs word_boxes) max_skip_len).

(** return [" ".join(run) for run in merged_runs] *)
Definition extract_text_runs (word_boxes : list flagged_word) (max_skip_len : Z)
    : list string :=
  map (String.concat " ") (extract_word_runs word_boxes max_skip_len).

(** A block of highlighted, resp. unhighlighted, words. *)
Definition hl (ws : list string) : list flagged_word := map (fun w => (w, true)) ws.
Definition unhl (ws : list string) : list flagged_word := map (fun w => (w, false)) ws.

End RunMerger.
Import RunMerger.


(* ------------------------------------------------------------------ *)
(** * Geometry: word boxes, the centroid matcher, Shapes *)

Module Geometry.
Local Open Scope Q_scope.

Definition Point := (Q * Q)%type.

(** Comparisons of rationals as booleans. *)
Definition qltb (a b : Q) : bool := if Qlt_le_dec a b then true else false.
Definition qleb (a b : Q) : bool := negb (qltb b a).
Definition qeqb (a b : Q) : bool := qleb a b && qleb b a.

(** shapely's [box(x0, y0, x1, y1)]: an axis-aligned rectangle.  Also the
    four-tuple of a fitz [Rect] such as [page.CropBox]. *)
Record Rect := mkRect { bx0 : Q; by0 : Q; bx1 : Q; by1 : Q }.

(** [box.centroid]: the midpoint of the rectangle. *)
Definition centroid (b : Rect) : Point :=
  ((bx0 b + bx1 b) / 2, (by0 b + by1 b) / 2).

(** [box.area] *)
Definition box_area (b : Rect) : Q := Qabs ((bx1 b - bx0 b) * (by1 b - by0 b)).

(** A shapely Polygon: an exterior ring and its interior rings (holes).  A
    ring is listed without repeating its first point at the end. *)
Record Shape := mkShape { exterior : list Point; interiors : list (list Point) }.

(** [MultiPolygon(polys)] *)
Definition MultiPolygon := list Shape.

(** Twice the signed area of the open chain [pts] (shoelace terms). *)
Fixpoint shoelace (pts : list Point) : Q :=
  match pts with
  | p :: ((q :: _) as rest) => (fst p * snd q - fst q * snd p) + shoelace rest
  | _ => 0
  end.

(** [Polygon(ring).area]: the absolute shoelace area of the closed ring. *)
Definition ring_area (ring : list Point) : Q :=
  match ring with
  | [] => 0
  | p :: _ => Qabs (shoelace (app ring [p])) / 2
  end.

(** *** [contains] on a box polygon *)

(** [geom.contains(point)] for a box polygon.  shapely's [contains] follows
    the DE-9IM predicate: the point must lie in the topological interior of
    the polygon, so for a box both coordinates lie strictly between its
    sides. *)
Definition box_contains (h : Rect) (p : Point) : bool :=
  qltb (Qmin (bx0 h) (bx1 h)) (fst p) && qltb (fst p) (Qmax (bx0 h) (bx1 h)) &&
  qltb (Qmin (by0 h) (by1 h)) (snd p) && qltb (snd p) (Qmax (by0 h) (by1 h)).

(** Length of the overlap of two closed intervals. *)
Definition overlap_len (a0 a1 b0 b1 : Q) : Q :=
  Qmax 0 (Qmin (Qmax a0 a1) (Qmax b0 b1) - Qmax (Qmin a0 a1) (Qmin b0 b1)).

(** [poly.intersection(word_box).area] for two boxes. *)
Definition box_intersection_area (h w : Rect) : Q :=
  overlap_len (bx0 h) (bx1 h) (bx0 w) (bx1 w) *
  overlap_len (by0 h) (by1 h) (by0 w) (by1 w).

(** *** [contains] on a MultiPolygon: GEOS's point-in-area location *)

(** Location of a point with respect to an areal geometry. *)
Inductive Location := INTERIOR | BOUNDARY | EXTERIOR.

(** [Orientation::index(p1, p2, q)] is the sign of this cross product:
    positive when q lies to the left of the directed line p1 -> p2. *)
Definition orient2d (p1 p2 q : Point) : Q :=
  (fst p2 - fst p1) * (snd q - snd p1) - (snd p2 - snd p1) * (fst q - fst p1).

(** [RayCrossingCounter::countSegment(p1, p2)] for the point [p]: [None]
    when [p] lies on the segment, otherwise the number (0 or 1) of
    crossings of the segment with the horizontal ray from [p] towards
    positive x.  Upward segments include their start and exclude their end,
    downward ones the other way round. *)
Definition count_segment (p p1 p2 : Point) : option nat :=
  if qltb (fst p1) (fst p) && qltb (fst p2) (fst p) then Some 0%nat
  else if qeqb (fst p) (fst p2) && qeqb (snd p) (snd p2) then None
  else if qeqb (snd p1) (snd p) && qeqb (snd p2) (snd p) then
    (if qleb (Qmin (fst p1) (fst p2)) (fst p) && qleb (fst p) (Qmax (fst p1) (fst p2))
     then None else Some 0%nat)
  else if (qltb (snd p) (snd p1) && qleb (snd p2) (snd p)) ||
          (qltb (snd p) (snd p2) && qleb (snd p1) (snd p)) then
    let sign := orient2d p1 p2 p in
    if qeqb sign 0 then None
    else if (if qltb (snd p2) (snd p1) then qltb sign 0 else qltb 0 sign)
    then Some 1%nat else Some 0%nat
  else Some 0%nat.

(** The segments [(ring[i], ring[i-1])], i = 1 .. n-1, of the coordinate
    sequence [prev :: pts]. *)
Fixpoint ring_segments (prev : Point) (pts : list Point) : list (Point * Point) :=
  match pts with
  | [] => []
  | q :: rest => (q, prev) :: ring_segments q rest
  end.

(** The segments of a ring's closed coordinate sequence (first point
    repeated at the end), in the order GEOS visits them. *)
Definition ring_pairs (ring : list Point) : list (Point * Point) :=
  match ring with
  | [] => []
  | p :: rest => ring_segments p (app rest [p])
  end.

(** The counter over the remaining segments: it stops at a segment that
    holds the point; otherwise the parity of the crossings decides. *)
Fixpoint count_crossings (p : Point) (segs : list (Point * Point)) (n : nat) : Location :=
  match segs with
  | [] => if Nat.odd n then INTERIOR else EXTERIOR
  | (p1, p2) :: rest =>
      match count_segment p p1 p2 with
      | None => BOUNDARY
      | Some k => count_crossings p rest (n + k)
      end
  end.

(** [RayCrossingCounter::locatePointInRing(p, ring)] *)
Definition locate_in_ring (p : Point) (ring : list Point) : Location :=
  count_crossings p (ring_pairs ring) 0.

(** The loop over the holes of [SimplePointInAreaLocator::locatePointInPolygon]:
    a point on a hole's ring is on the boundary, a point inside a hole is
    outside the polygon. *)
Fixpoint locate_in_holes (p : Point) (holes : list (list Point)) : Location :=
  match holes with
  | [] => INTERIOR
  | h :: rest =>
      match locate_in_ring p h with
      | BOUNDARY => BOUNDARY
      | INTERIOR => EXTERIOR
      | EXTERIOR => locate_in_holes p rest
      end
  end.

(** [SimplePointInAreaLocator::locatePointInPolygon(p, poly)] *)
Definition locate_in_polygon (p : Point) (s : Shape) : Location :=
  match locate_in_ring p (exterior s) with
  | INTERIOR => locate_in_holes p (interiors s)
  | loc => loc
  end.

(** The location in a MultiPolygon: that in the first polygon which does
    not locate the point outside itself. *)
Fixpoint locate_in_multipolygon (p : Point) (mp : MultiPolygon) : Location :=
  match mp with
  | [] => EXTERIOR
  | s :: rest =>
      match locate_in_polygon p s with
      | EXTERIOR => locate_in_multipolygon p rest
      | loc => loc
      end
  end.

(** [MultiPolygon(polys).contains(point)]: the point lies in the interior. *)
Definition multipolygon_contains (mp : MultiPolygon) (p : Point) : bool :=
  match locate_in_multipolygon p mp with
  | INTERIOR => true
  | _ => false
  end.

(** *** [intersection(word_box).area] on a MultiPolygon *)

(** One Sutherland-Hodgman pass: the closed ring cut down to the side of a
    line where [inside] holds; [cut s e] is the point where the edge from
    [s] to [e] meets the line. *)
Fixpoint clip_go (inside : Point -> bool) (cut : Point -> Point -> Point)
    (prev : Point) (pts : list Point) : list Point :=
  match pts with
  | [] => []
  | e :: rest =>
      app (if inside e then (if inside prev then [e] else [cut prev e; e])
           else (if inside prev then [cut prev e] else []))
          (clip_go inside cut e rest)
  end.

Definition clip_pass (inside : Point -> bool) (cut : Point -> Point -> Point)
    (ring : list Point) : list Point :=
  match ring with
  | [] => []
  | p :: _ => clip_go inside cut (List.last ring p) ring
  end.

(** Where the segment from [s] to [e] meets the vertical line x = k, or the
    horizontal line y = k. *)
Definition cut_x (k : Q) (s e : Point) : Point :=
  (k, snd s + (k - fst s) * (snd e - snd s) / (fst e - fst s)).
Definition cut_y (k : Q) (s e : Point) : Point :=
  (fst s + (k - snd s) * (fst e - fst s) / (snd e - snd s), k).

(** A ring clipped to a box by its four sides in turn.  For a simple ring
    the result bounds the ring's intersection with the (convex) box, up to
    edges running back and forth along the box sides, which enclose no
    area; so its shoelace area is the area of the intersection. *)
Definition clip_ring (b : Rect) (ring : list Point) : list Point :=
  let x0 := Qmin (bx0 b) (bx1 b) in let x1 := Qmax (bx0 b) (bx1 b) in
  let y0 := Qmin (by0 b) (by1 b) in let y1 := Qmax (by0 b) (by1 b) in
  clip_pass (fun p => qleb (snd p) y1) (cut_y y1)
    (clip_pass (fun p => qleb y0 (snd p)) (cut_y y0)
       (clip_pass (fun p => qleb (fst p) x1) (cut_x x1)
          (clip_pass (fun p => qleb x0 (fst p)) (cut_x x0) ring))).

(** The area of a polygon's intersection with a box: the exterior's part
    less the holes' parts. *)
Definition polygon_intersection_area (s : Shape) (b : Rect) : Q :=
  ring_area (clip_ring b (exterior s)) -
  fold_right Qplus 0 (map (fun h => ring_area (clip_ring b h)) (interiors s)).

(** [MultiPolygon(polys).intersection(word_box).area]: the sum over the
    polygons, whose interiors are disjoint. *)
Definition multipolygon_intersection_area (mp : MultiPolygon) (b : Rect) : Q :=
  fold_right Qplus 0 (map (fun s => polygon_intersection_area s b) mp).

(** *** The word matcher *)

(** The two shapely operations word_is_highlighted applies to its
    [highlight_poly]: [contains] of a point and the area of the
    intersection with a box. *)
Class HighlightGeometry (G : Type) := {
  geom_contains : G -> Point -> bool;
  geom_intersection_area : G -> Rect -> Q
}.

(** A box-shaped highlight polygon. *)
#[global] Instance box_geometry : HighlightGeometry Rect := {
  geom_contains := box_contains;
  geom_intersection_area := box_intersection_area
}.

(** The MultiPolygon of Textual polygons that extract_text_highlights
    passes. *)
#[global] Instance multipolygon_geometry : HighlightGeometry MultiPolygon := {
  geom_contains := multipolygon_contains;
  geom_intersection_area := multipolygon_intersection_area
}.

(** WordSelectionMethod = Enum("WordSelectionMethod", "CENTROID AREA_RATIO") *)
Inductive WordSelectionMethod := CENTROID | AREA_RATIO.

Definition DEFAULT_AREA_RATIO : Q := 1 # 2.

(** word_is_highlighted(method, highlight_poly, word_box).  The final
    [raise ValueError] is unreachable: the enum has exactly two members. *)
Definition word_is_highlighted {G} `{HighlightGeometry G} (method : WordSelectionMethod)
    (highlight_poly : G) (word_box : Rect) : Result bool :=
  match method with
  | CENTROID => Ok (geom_contains highlight_poly (centroid word_box))
  | AREA_RATIO =>
      let overlap := geom_intersection_area highlight_poly word_box in
      if Qeq_bool (box_area word_box) 0 then Raise ZeroDivisionError
      else Ok (qltb DEFAULT_AREA_RATIO (overlap / box_area word_box))
  end.

(** HighlightType = Enum("HighlightType", "TEXTUAL SELECTION") *)
Inductive HighlightType := TEXTUAL | SELECTION.

(** classify_highlight(highlight_poly, clipping_area_threshold) *)
Definition classify_highlight (highlight_poly : Shape) (clipping_area_threshold : Q)
    : HighlightType :=
  match interiors highlight_poly with
  | [ring] =>
      if Qlt_le_dec clipping_area_threshold (ring_area ring) then SELECTION
      else TEXTUAL
  | _ => TEXTUAL
  end.

(** classify_highlights(polys, clipping_area_threshold): the textual and
    the selection polygons, each in input order. *)
Fixpoint classify_highlights (polys : list Shape) (clipping_area_threshold : Q)
    : list Shape * list Shape :=
  match polys with
  | [] => ([], [])
  | poly :: rest =>
      let '(text_highlights, selection_highlights) :=
        classify_highlights rest clipping_area_threshold in
      match classify_highlight poly clipping_area_threshold with
      | TEXTUAL => (poly :: text_highlights, selection_highlights)
      | SELECTION => (text_highlights, poly :: selection_highlights)
      end
  end.

(** [ops.transform(f, geom)]: [f] applied to every coordinate of every ring. *)
Definition transform (f : Point -> Point) (s : Shape) : Shape :=
  mkShape (map f (exterior s)) (map (map f) (interiors s)).

(** to_fitz_coord(x, y) = (x, page.CropBox[-1] - y); [CropBox[-1]] is the
    fourth coordinate [y1] of the crop box rectangle. *)
Definition to_fitz_coord (crop_box : Rect) (p : Point) : Point :=
  (fst p, by1 crop_box - snd p).

(** coordinate_transformer(page) = partial(ops.transform, to_fitz_coord) *)
Definition coordinate_transformer (crop_box : Rect) : Shape -> Shape :=
  transform (to_fitz_coord crop_box).

(** The height of a crop box: its top y minus its bottom y. *)
Definition crop_height (crop_box : Rect) : Q := by1 crop_box - by0 crop_box.

End Geometry.
Import Geometry.

(* ------------------------------------------------------------------ *)
(** * parsing.py: the operator tokenizer *)

Module Tokenizer.

(** The double-quote operator name. *)
Definition dquote : string := String (Ascii.ascii_of_nat 34) EmptyString.

(** PATH_OPS, in source order (["i"] occurs twice, as in the source). *)
Definition PATH_OPS : list string :=
  ["w"; "J"; "j"; "M"; "d"; "ri"; "i"; "gs"; "q"; "Q"; "cm"; "m"; "l"; "c";
   "v"; "y"; "h"; "re"; "S"; "s"; "f"; "F"; "f*"; "B"; "B*"; "b"; "b*"; "n";
   "W"; "W*"; "BT"; "ET"; "Tc"; "Tw"; "Tz"; "TL"; "Tf"; "Tr"; "Ts"; "i";
   "Td"; "TD"; "Tm"; "T*"; "Tj"; "TJ"; "'"; dquote; "d0"; "d1"; "CS"; "cs";
   "SC"; "SCN"; "sc"; "scn"; "G"; "g"; "RG"; "rg"; "K"; "k"; "sh"; "BI";
   "ID"; "EI"; "Do"; "MP"; "DP"; "BMC"; "BDC"; "EMC"; "BX"; "EX"].

(** [token in PATH_OPS] *)
Definition is_path_op (token : string) : bool :=
  existsb (String.eqb token) PATH_OPS.

(** The value of a byte, and a test of its range. *)
Definition byte_val (c : Ascii.ascii) : Z := Z.of_nat (Ascii.nat_of_ascii c).
Definition byte_in (lo hi : Z) (c : Ascii.ascii) : bool :=
  (lo <=? byte_val c)%Z && (byte_val c <=? hi)%Z.
Definition cont_byte (c : Ascii.ascii) : bool := byte_in 128 191 c.

(** [raw.decode("utf-8")]: each character as its code point paired with
    its bytes.  The decoder is strict, as CPython's: no overlong forms, no
    surrogates, nothing above U+10FFFF, and a truncated or malformed
    sequence raises UnicodeDecodeError. *)
Fixpoint utf8_decode (s : string) : Result (list (Z * string)) :=
  match s with
  | EmptyString => Ok []
  | String c0 s1 =>
      if byte_in 0 127 c0 then
        rest ← utf8_decode s1; Ok ((byte_val c0, String c0 EmptyString) :: rest)
      else if byte_in 194 223 c0 then
        match s1 with
        | String c1 s2 =>
            if cont_byte c1 then
              rest ← utf8_decode s2;
              Ok ((((byte_val c0 - 192) * 64 + (byte_val c1 - 128))%Z,
                  String c0 (String c1 EmptyString)) :: rest)
            else Raise UnicodeDecodeError
        | EmptyString => Raise UnicodeDecodeError
        end
      else if byte_in 224 239 c0 then
        match s1 with
        | String c1 (String c2 s3) =>
            if byte_in (if (byte_val c0 =? 224)%Z then 160 else 128)
                       (if (byte_val c0 =? 237)%Z then 159 else 191) c1 && cont_byte c2 then
              rest ← utf8_decode s3;
              Ok ((((byte_val c0 - 224) * 4096 + (byte_val c1 - 128) * 64
                   + (byte_val c2 - 128))%Z,
                  String c0 (String c1 (String c2 EmptyString))) :: rest)
            else Raise UnicodeDecodeError
        | _ => Raise UnicodeDecodeError
        end
      else if byte_in 240 244 c0 then
        match s1 with
        | String c1 (String c2 (String c3 s4)) =>
            if byte_in (if (byte_val c0 =? 240)%Z then 144 else 128)
                       (if (byte_val c0 =? 244)%Z then 143 else 191) c1 &&
               cont_byte c2 && cont_byte c3 then
              rest ← utf8_decode s4;
              Ok ((((byte_val c0 - 240) * 262144 + (byte_val c1 - 128) * 4096
                   + (byte_val c2 - 128) * 64 + (byte_val c3 - 128))%Z,
                  String c0 (String c1 (String c2 (String c3 EmptyString)))) :: rest)
            else Raise UnicodeDecodeError
        | _ => Raise UnicodeDecodeError
        end
      else Raise UnicodeDecodeError
  end.

(** The code points [str.split()] splits on ([str.isspace()]). *)
Definition is_py_space (cp : Z) : bool :=
  ((9 <=? cp) && (cp <=? 13))%Z || ((28 <=? cp) && (cp <=? 32))%Z ||
  (cp =? 133)%Z || (cp =? 160)%Z || (cp =? 5760)%Z ||
  ((8192 <=? cp) && (cp <=? 8202))%Z || (cp =? 8232)%Z || (cp =? 8233)%Z ||
  (cp =? 8239)%Z || (cp =? 8287)%Z || (cp =? 12288)%Z.

(** [text.split()] on the decoded characters: maximal runs of non-space
    characters, each as its bytes; [cur] is the token being read. *)
Fixpoint split_go (cs : list (Z * string)) (cur : string) : list string :=
  match cs with
  | [] => if String.eqb cur "" then [] else [cur]
  | (cp, bytes) :: cs' =>
      if is_py_space cp then
        (if String.eqb cur "" then split_go cs' "" else cur :: split_go cs' "")
      else split_go cs' (String.append cur bytes)
  end.

(** [raw.decode("utf-8").split()] *)
Definition py_split (raw : string) : Result (list string) :=
  cs ← utf8_decode raw; Ok (split_go cs "").

(** The loop of tokenize_graphics over the tokens, with [arg_stack] as an
    accumulator.  An operator is yielded with a copy of the stack, which
    is then cleared; any other token is appended to the stack. *)
Fixpoint tokenize_tokens (arg_stack : list string) (tokens : list string)
    : list (string * list string) :=
  match tokens with
  | [] => []
  | token :: rest =>
      if is_path_op token then (token, arg_stack) :: tokenize_tokens [] rest
      else tokenize_tokens (app arg_stack [token]) rest
  end.

(** tokenize_graphics(raw_graphics_content): the (operator, arguments)
    records the generator yields.  The content is decoded when the
    generator is first resumed, before anything is yielded, so a decoding
    error ends it with no record. *)
Definition tokenize_graphics (raw_graphics_content : string)
    : Result (list (string * list string)) :=
  tokens ← py_split raw_graphics_content; Ok (tokenize_tokens [] tokens).

End Tokenizer.
Import Tokenizer.

(* ------------------------------------------------------------------ *)
(** * parsing.py: the highlighter stroke interpreter *)

Module Interpreter.
Local Open Scope Q_scope.

(** YELLOW = ("1", "0.952941", "0.658824") *)
Definition YELLOW : list string := ["1"; "0.952941"; "0.658824"].

(** content_contains_highlight(content): the bytes "1 0.952941 0.658824 RG"
    occur in the content. *)
Definition content_contains_highlight (content : string) : bool :=
  match String.index 0 "1 0.952941 0.658824 RG" content with
  | Some _ => true
  | None => false
  end.

Inductive CapStyle := CapRound | CapFlat | CapSquare.
Inductive JoinStyle := JoinRound | JoinMitre | JoinBevel.

(** CAP_STYLES = {1: round, 2: flat, 3: square}; [None] is a missing key. *)
Definition CAP_STYLES (i : Z) : option CapStyle :=
  match i with
  | 1%Z => Some CapRound
  | 2%Z => Some CapFlat
  | 3%Z => Some CapSquare
  | _ => None
  end.

(** JOIN_STYLES = {1: round, 2: mitre, 3: bevel} *)
Definition JOIN_STYLES (i : Z) : option JoinStyle :=
  match i with
  | 1%Z => Some JoinRound
  | 2%Z => Some JoinMitre
  | 3%Z => Some JoinBevel
  | _ => None
  end.

(** The local variables of highlighter_lines.  [current_line] is [None] for
    Python's [None]; otherwise the list, whose first element is [None] until
    an [m] operator sets it. *)
Record LineState := mkLineState {
  current_line : option (list (option Point));
  width : option Q;
  cap_style : option CapStyle;
  join_style : option JoinStyle
}.

(** current_line = []; width = cap_style = join_style = None *)
Definition init_state : LineState := mkLineState (Some []) None None None.

(** Python truthiness of [current_line]. *)
Definition armed (st : LineState) : bool :=
  match current_line st with
  | Some (_ :: _) => true
  | _ => false
  end.

Section Interp.

(** Python's [float(s)] and [int(s)] on a token ([None]: ValueError), and
    shapely's [LineString(points).buffer(distance, cap_style, join_style)].
    They are external to the repository and stay abstract. *)
Variable py_float : string -> option Q.
Variable py_int : string -> option Z.
Variable buffer : list Point -> Q -> CapStyle -> JoinStyle -> Shape.

(** [float(args[i])]: IndexError when [args] is too short. *)
Definition arg_float (args : list string) (i : nat) : Result Q :=
  match nth_error args i with
  | None => Raise IndexError
  | Some s => match py_float s with Some q => Ok q | None => Raise ValueError end
  end.

(** [int(args[i])] *)
Definition arg_int (args : list string) (i : nat) : Result Z :=
  match nth_error args i with
  | None => Raise IndexError
  | Some s => match py_int s with Some n => Ok n | None => Raise ValueError end
  end.

(** [current_line[0] = p] on a non-empty list. *)
Definition set_first (line : list (option Point)) (p : Point) : list (option Point) :=
  match line with
  | [] => []
  | _ :: rest => Some p :: rest
  end.

(** [LineString(current_line)] needs every entry to be a point; a leading
    [None] left by a stroke without [m] makes it raise TypeError. *)
Fixpoint all_points (line : list (option Point)) : Result (list Point) :=
  match line with
  | [] => Ok []
  | None :: _ => Raise TypeError
  | Some p :: rest => ps ← all_points rest; Ok (p :: ps)
  end.

(** One iteration of the [for op, args in tokenize_graphics(...)] loop:
    the new local state and the shape yielded, if any. *)
Definition step (st : LineState) (rec : string * list string)
    : Result (LineState * option Shape) :=
  let '(op, args) := rec in
  if String.eqb op "RG" && bool_decide (args = YELLOW) then
    Ok (mkLineState (Some [None]) (width st) (cap_style st) (join_style st), None)
  else
    match current_line st with
    | Some ((_ :: _) as line) =>
        if String.eqb op "m" then
          x ← arg_float args 0; y ← arg_float args 1;
          Ok (mkLineState (Some (set_first line (x, y))) (width st) (cap_style st)
                (join_style st), None)
        else if String.eqb op "j" then
          i_join_style ← arg_int args 0;
          match JOIN_STYLES i_join_style with
          | None => Raise KeyError
          | Some js => Ok (mkLineState (current_line st) (width st) (cap_style st) (Some js), None)
          end
        else if String.eqb op "J" then
          i_cap_style ← arg_int args 0;
          match CAP_STYLES i_cap_style with
          | None => Raise KeyError
          | Some cs => Ok (mkLineState (current_line st) (width st) (Some cs) (join_style st), None)
          end
        else if String.eqb op "w" then
          w ← arg_float args 0;
          Ok (mkLineState (current_line st) (Some w) (cap_style st) (join_style st), None)
        else if String.eqb op "l" then
          x ← arg_float args 0; y ← arg_float args 1;
          Ok (mkLineState (Some (app line [Some (x, y)])) (width st) (cap_style st)
                (join_style st), None)
        else if String.eqb op "S" then
          match width st, cap_style st, join_style st with
          | Some w, Some cs, Some js =>
              if (List.length line <=? 1)%nat then Raise AssertionError
              else
                pts ← all_points line;
                Ok (mkLineState None None None None, Some (buffer pts (w / 2) cs js))
          | _, _, _ => Raise AssertionError
          end
        else if String.eqb op "cm" then
          if bool_decide (args = ["1"; "0"; "0"; "1"; "0"; "0"]) then Ok (st, None)
          else Raise NotImplementedError
        else Ok (st, None)
    | _ => Ok (st, None)
    end.

(** The generator over an operator sequence: the shapes yielded, in order,
    and the exception that ended it, if any. *)
Fixpoint interp (st : LineState) (ops : list (string * list string))
    : list Shape * option PyError :=
  match ops with
  | [] => ([], None)
  | rec :: rest =>
      match step st rec with
      | Raise e => ([], Some e)
      | Ok (st', y) =>
          let '(ys, err) := interp st' rest in
          (match y with Some s => s :: ys | None => ys end, err)
      end
  end.

(** highlighter_lines(raw_graphics_content) *)
Definition highlighter_lines (raw_graphics_content : string) : list Shape * option PyError :=
  match tokenize_graphics raw_graphics_content with
  | Raise e => ([], Some e)
  | Ok ops => interp init_state ops
  end.

(** The loop of extract_highlight_lines over the page's content xrefs;
    [None] is an xref that is not a stream.  [polys.extend(gen)] re-raises
    the generator's exception. *)
Fixpoint collect_highlight_lines (contents : list (option string)) : Result (list Shape) :=
  match contents with
  | [] => Ok []
  | None :: rest => collect_highlight_lines rest
  | Some content :: rest =>
      if content_contains_highlight content then
        match highlighter_lines content with
        | (_, Some e) => Raise e
        | (ys, None) => polys ← collect_highlight_lines rest; Ok (app ys polys)
        end
      else collect_highlight_lines rest
  end.

(** extract_highlight_lines(doc, page) *)
Definition extract_highlight_lines (contents : list (option string)) (crop_box : Rect)
    : Result (list Shape) :=
  polys ← collect_highlight_lines contents;
  Ok (map (coordinate_transformer crop_box) polys).

End Interp.

End Interpreter.
Import Interpreter.

(* ------------------------------------------------------------------ *)
(** * extract.py: extract_highlights *)

Module Pipeline.

(** WordSelectionMethod[name]: enum lookup by member name. *)
Definition lookup_method (name : string) : Result WordSelectionMethod :=
  if String.eqb name "CENTROID" then Ok CENTROID
  else if String.eqb name "AREA_RATIO" then Ok AREA_RATIO
  else Raise KeyError.

(** The choices of the [--word-selection-method] option of main:
    [[m.name for m in WordSelectionMethod]]. *)
Definition METHOD_NAMES : list string := ["CENTROID"; "AREA_RATIO"].

(** Lower-casing.  The choices are ASCII, and no other character lowers
    or case-folds to one of their letters, so only ASCII letters need
    folding to compare a value with them. *)
Definition ascii_lower (c : Ascii.ascii) : Ascii.ascii :=
  let n := Ascii.nat_of_ascii c in
  if ((65 <=? n)%nat && (n <=? 90)%nat) then Ascii.ascii_of_nat (n + 32) else c.

Fixpoint string_lower (s : string) : string :=
  match s with
  | EmptyString => EmptyString
  | String c s' => String (ascii_lower c) (string_lower s')
  end.

(** [click.Choice(choices, case_sensitive=False).convert(value)]: an exact
    match is returned as is, otherwise the choice equal to the value up to
    case; a value matching no choice is rejected with BadParameter (click
    then prints the usage error and exits). *)
Definition click_choice (choices : list string) (value : string) : Result string :=
  if existsb (String.eqb value) choices then Ok value
  else
    match List.find (fun c => String.eqb (string_lower c) (string_lower value)) choices with
    | Some c => Ok c
    | None => Raise BadParameter
    end.

(** [d[key].extend(xs)] on a [defaultdict(list)]. *)
Definition extend_at {A} (d : gmap Z (list A)) (key : Z) (xs : list A) : gmap Z (list A) :=
  <[key := app (default [] (d !! key)) xs]> d.

Section ExtractHighlights.

(** The page objects and rendered pixmaps of the PDF library, and the
    per-page steps [extract_highlights] calls: [page.number],
    [extract_highlight_lines(doc, page)], [merge_highlight_lines] (shapely's
    union), the pixmap of [extract_clips] for one selection polygon, and
    [extract_text_highlights].  The statements below hold for every choice
    of them. *)
Variable Page Pixmap : Type.
Variable page_number : Page -> Z.
Variable page_highlight_lines : Page -> Result (list Shape).
Variable merge_highlight_lines : list Shape -> Result (list Shape).
Variable extract_clip : Page -> Shape -> Result Pixmap.
Variable extract_text_highlights :
  list Shape -> Page -> WordSelectionMethod -> Z -> Result (list string).

(** The two [defaultdict]s. *)
Definition Acc := (gmap Z (list string) * gmap Z (list Pixmap))%type.

(** The body of [for page in doc:]; the debug rendering is left out (it
    only plots). *)
Definition process_page (max_skip_len : Z) (word_selection_method : string)
    (clip_area_threshold : Q) (acc : Acc) (page : Page) : Result Acc :=
  let '(page_text_highlights, page_clips) := acc in
  highlight_lines ← page_highlight_lines page;
  match highlight_lines with
  | [] => Ok acc
  | _ :: _ =>
      highlight_polys ← merge_highlight_lines highlight_lines;
      let '(text_highlight_polys, selection_highlight_polys) :=
        classify_highlights highlight_polys clip_area_threshold in
      page_clips' ←
        match selection_highlight_polys with
        | [] => Ok page_clips
        | _ :: _ =>
            selection_highlights ← mapM (extract_clip page) selection_highlight_polys;
            Ok (extend_at page_clips (page_number page + 1) selection_highlights)
        end;
      match text_highlight_polys with
      | [] => Ok (page_text_highlights, page_clips')
      | _ :: _ =>
          method ← lookup_method word_selection_method;
          text_highlights ←
            extract_text_highlights text_highlight_polys page method max_skip_len;
          Ok (extend_at page_text_highlights (page_number page + 1) text_highlights,
              page_clips')
      end
  end.

Fixpoint process_pages (max_skip_len : Z) (word_selection_method : string)
    (clip_area_threshold : Q) (acc : Acc) (pages : list Page) : Result Acc :=
  match pages with
  | [] => Ok acc
  | page :: rest =>
      acc' ← process_page max_skip_len word_selection_method clip_area_threshold acc page;
      process_pages max_skip_len word_selection_method clip_area_threshold acc' rest
  end.

(** extract_highlights(doc, max_skip_len, word_selection_method,
    clip_area_threshold, clip_zoom, debug_render); [clip_zoom] only enters
    the pixmaps. *)
Definition extract_highlights (doc : list Page) (max_skip_len : Z)
    (word_selection_method : string) (clip_area_threshold : Q) : Result Acc :=
  process_pages max_skip_len word_selection_method clip_area_threshold (∅, ∅) doc.

(** main(filename, out, max_skip_len, word_selection_method, ...): click
    converts the options before the body runs, so an option value it
    rejects stops the command before the document is opened.  The body's
    handling of the output directory and of the output files is left out;
    its result is that of extract_highlights. *)
Definition main (doc : list Page) (max_skip_len : Z) (word_selection_method : string)
    (clip_area_threshold : Q) : Result Acc :=
  word_selection_method' ← click_choice METHOD_NAMES word_selection_method;
  extract_highlights doc max_skip_len word_selection_method' clip_area_threshold.

(** The page yields no Textual polygon. *)
Definition no_textual (page : Page) (thr : Q) : Prop :=
  forall lines polys, page_highlight_lines page = Ok lines -> lines <> [] ->
    merge_highlight_lines lines = Ok polys ->
    fst (classify_highlights polys thr) = [].

End ExtractHighlights.

End Pipeline.
Import Pipeline.

(* ------------------------------------------------------------------ *)
(** * Concrete inputs *)

Module Inputs.
Local Open Scope Q_scope.

(** The seven words of the bounded-skip example, in reading order. *)
Definition example_words : list flagged_word :=
  app (hl ["w1"; "w2"]) (app (unhl ["w3"; "w4"; "w5"]) (hl ["w6"; "w7"])).

(** The highlight box and a word box whose centroid (10, 3) lies on the
    highlight's right side. *)
Definition hl_box : Rect := mkRect 0 0 10 10.



(** A crop box whose bottom y coordinate is 10. *)
Definition offset_crop_box : Rect := mkRect 0 10 100 110.

(** A record [(args, op)] of a decomposition: literal arguments, then an
    operator token. *)
Definition segment_ok (seg : list string * string) : Prop :=
  Forall (fun t => is_path_op t = false) (fst seg) /\ is_path_op (snd seg) = true.

Definition flatten_segments (segs : list (list string * string)) : list string :=
  concat (map (fun seg => app (fst seg) [snd seg]) segs).

(** Decimal integer tokens ("-"? digit+), a concrete instance of [int(s)]
    used to run the interpreter on examples. *)
Fixpoint digits_value (s : string) (acc : Z) : option Z :=
  match s with
  | EmptyString => Some acc
  | String c rest =>
      let d := Ascii.nat_of_ascii c in
      if ((48 <=? d)%nat && (d <=? 57)%nat)
      then digits_value rest (10 * acc + Z.of_nat (d - 48))%Z
      else None
  end.

Definition decimal_int (s : string) : option Z :=
  match s with
  | EmptyString => None
  | String "-"%char EmptyString => None
  | String "-"%char rest => option_map Z.opp (digits_value rest 0%Z)
  | _ => digits_value s 0%Z
  end.

(** Integer tokens read as rationals: enough to run the examples. *)
Definition decimal_float (s : string) : option Q := option_map inject_Z (decimal_int s).

(** The buffered polygon of a polyline, reduced to its vertex list: enough
    to run the examples. *)
Definition outline (pts : list Point) (r : Q) (c : CapStyle) (j : JoinStyle) : Shape :=
  mkShape pts [].

(** A closed loop whose 80 x 80 hole makes it a Selection, and a plain
    stroke outline, which is Textual. *)
Definition loop_shape : Shape :=
  mkShape [(0, 0); (0, 100); (100, 100); (100, 0)]%Q
          [[(10, 10); (10, 90); (90, 90); (90, 10)]%Q].
Definition stroke_shape : Shape := mkShape [(0, 0); (0, 10); (100, 10); (100, 0)]%Q [].

(** extract_highlights on pages given as (page.number, highlight polygons),
    with the union taken as the identity, one pixmap per clip polygon and a
    fixed text for the textual polygons. *)
Definition example_extract (doc : list (Z * list Shape)) (k : Z) (name : string) (thr : Q)
    : Result (Acc Shape) :=
  extract_highlights (Z * list Shape) Shape fst (fun p => Ok (snd p)) Ok
    (fun _ s => Ok s) (fun _ _ _ _ => Ok ["highlighted text"]) doc k name thr.

(** main on the same pages. *)
Definition example_main (doc : list (Z * list Shape)) (k : Z) (name : string) (thr : Q)
    : Result (Acc Shape) :=
  main (Z * list Shape) Shape fst (fun p => Ok (snd p)) Ok
    (fun _ s => Ok s) (fun _ _ _ _ => Ok ["highlighted text"]) doc k name thr.

End Inputs.
Import Inputs.

(* ------------------------------------------------------------------ *)
(** * Predicates and operator sequences used in the statements below *)

Module Observations.
Local Open Scope Q_scope.

Definition is_textual (h : HighlightType) : bool :=
  match h with TEXTUAL => true | SELECTION => false end.

(** The operator record that arms the interpreter, and the stroke end. *)
Definition is_yellow_rg (r : string * list string) : bool :=
  String.eqb (fst r) "RG" && bool_decide (snd r = YELLOW).
Definition is_stroke_op (r : string * list string) : bool := String.eqb (fst r) "S".

(** current_line = width = cap_style = join_style = None, after a stroke. *)
Definition reset_state : LineState := mkLineState None None None None.



(** The bytes of a sequence of decoded characters, in order. *)
Definition char_bytes (cs : list (Z * string)) : string :=
  fold_right (fun ch acc => String.append (snd ch) acc) "" cs.


(** The operator records of one highlighter stroke as the reMarkable
    writes it: colour, width, cap, join, a move and line segments, then S. *)
Definition stroke_ops (w cap join x y : string) (segs : list (string * string))
    : list (string * list string) :=
  app [("RG", YELLOW); ("w", [w]); ("J", [cap]); ("j", [join]); ("m", [x; y])]
      (app (map (fun p => ("l", [fst p; snd p])) segs) [("S", [])]).

(** The contents of the xrefs that are streams, in order. *)
Definition stream_contents (contents : list (option string)) : list string :=
  flat_map (fun o => match o with Some c => [c] | None => [] end) contents.

(** A stream whose yellow colour operands are separated by a newline. *)
Definition newline_yellow_stream : string :=
  String.append "1" (String (Ascii.ascii_of_nat 10) "0.952941 0.658824 RG 2 w 1 J 1 j 0 0 m 1 1 l S").

(** Adjacent entries carry different keys. *)
Fixpoint keys_alternate {A} (l : list (bool * A)) : Prop :=
  match l with
  | x :: ((y :: _) as rest) => fst x <> fst y /\ keys_alternate rest
  | _ => True
  end.

End Observations.
Import Observations.

(* ================================================================== *)
(** * Proofs *)

(* ------------------------------------------------------------------ *)
(** ** groupby *)

Section GroupByFacts.
Context {A : Type} (key : A -> bool).

(** A non-empty block of equal keys followed by a different key (or by
    nothing) is one group. *)
Lemma groupby_block (k : bool) (xs rest : list A) :
  xs <> [] -> Forall (fun x => key x = k) xs ->
  match groupby key rest with [] => True | (k', _) :: _ => k' <> k end ->
  groupby key (app xs rest) = (k, xs) :: groupby key rest.
Proof.
  intros Hne Hall Hrest. induction xs as [|x xs IH]; [congruence|].
  inversion Hall as [|? ? Hx Hxs]; subst.
  destruct xs as [|x' xs'].
  - unfold groupby in *; simpl.
    destruct (fold_right (group_step key) [] rest) as [|[k' g] r]; simpl; [reflexivity|].
    destruct (Bool.eqb (key x) k') eqn:E; [|reflexivity].
    apply Bool.eqb_prop in E. congruence.
  - change (groupby key (app (x :: x' :: xs') rest))
      with (group_step key x (groupby key (app (x' :: xs') rest))).
    rewrite IH by (congruence || assumption). simpl.
    now rewrite Bool.eqb_reflx.
Qed.

(** Folding a common prefix over two accumulators whose first groups have
    the same key changes them in the same way. *)
Lemma fold_groups_prefix (p : list A) (k : bool) (g1 g2 : list A)
    (r1 r2 : list (bool * list A)) :
  exists pre h,
    fold_right (group_step key) ((k, g1) :: r1) p = app pre ((k, app h g1) :: r1) /\
    fold_right (group_step key) ((k, g2) :: r2) p = app pre ((k, app h g2) :: r2).
Proof.
  induction p as [|x p IH]; simpl.
  - exists [], []. auto.
  - destruct IH as (pre & h & E1 & E2). rewrite E1, E2.
    destruct pre as [|[k0 g0] pre]; simpl.
    + destruct (Bool.eqb (key x) k) eqn:E.
      * exists [], (x :: h). auto.
      * exists [(key x, [x])], h. auto.
    + destruct (Bool.eqb (key x) k0) eqn:E.
      * exists ((k0, x :: g0) :: pre), h. auto.
      * exists ((key x, [x]) :: (k0, g0) :: pre), h. auto.
Qed.

End GroupByFacts.

Lemma groupby_app {A} (key : A -> bool) (l1 l2 : list A) :
  groupby key (app l1 l2) = fold_right (group_step key) (groupby key l2) l1.
Proof. unfold groupby. apply fold_right_app. Qed.

(* ------------------------------------------------------------------ *)
(** ** Run merger *)

Lemma map_fst_hl (ws : list string) : map fst (hl ws) = ws.
Proof. induction ws; simpl; congruence. Qed.

Lemma map_fst_unhl (ws : list string) : map fst (unhl ws) = ws.
Proof. induction ws; simpl; congruence. Qed.

Lemma hl_all (ws : list string) : Forall (fun x : flagged_word => snd x = true) (hl ws).
Proof. induction ws; constructor; auto. Qed.

Lemma unhl_all (ws : list string) : Forall (fun x : flagged_word => snd x = false) (unhl ws).
Proof. induction ws; constructor; auto. Qed.

Lemma hl_nonempty (ws : list string) : ws <> [] -> hl ws <> [].
Proof. destruct ws; simpl; congruence. Qed.

Lemma unhl_nonempty (ws : list string) : ws <> [] -> unhl ws <> [].
Proof. destruct ws; simpl; congruence. Qed.

Lemma groupby_hl (ws : list string) :
  ws <> [] -> groupby snd (hl ws) = [(true, hl ws)].
Proof.
  intros H. rewrite <- (app_nil_r (hl ws)).
  rewrite groupby_block with (k := true);
    [rewrite app_nil_r; reflexivity | now apply hl_nonempty | apply hl_all | exact I].
Qed.

(** The words of two highlighted runs with a bridgeable gap between. *)
Lemma word_runs_bridge (a g b : list string) (max_skip_len : Z) :
  a <> [] -> g <> [] -> b <> [] -> (Z.of_nat (length g) <= max_skip_len)%Z ->
  extract_word_runs (app (hl a) (app (unhl g) (hl b))) max_skip_len = [app a (app g b)].
Proof.
  intros Ha Hg Hb Hk.
  assert (Eb : groupby snd (hl b) = [(true, hl b)]) by now apply groupby_hl.
  assert (Egb : groupby snd (app (unhl g) (hl b)) = (false, unhl g) :: [(true, hl b)]).
  { rewrite groupby_block with (k := false);
      [now rewrite Eb | now apply unhl_nonempty | apply unhl_all | rewrite Eb; discriminate]. }
  assert (E : groupby snd (app (hl a) (app (unhl g) (hl b)))
              = (true, hl a) :: (false, unhl g) :: [(true, hl b)]).
  { rewrite groupby_block with (k := true);
      [now rewrite Egb | now apply hl_nonempty | apply hl_all | rewrite Egb; discriminate]. }
  unfold extract_word_runs, runs. rewrite E. simpl.
  rewrite map_fst_hl, map_fst_unhl, map_fst_hl.
  apply Z.leb_le in Hk. rewrite Hk. simpl.
  unfold merged_runs.
  set (ms := [(true, a); (true, g); (true, b)]).
  assert (Ems : groupby fst ms = [(true, ms)]).
  { rewrite <- (app_nil_r ms).
    rewrite groupby_block with (k := true);
      [now rewrite app_nil_r | discriminate | repeat constructor | exact I]. }
  rewrite Ems. simpl. now rewrite app_nil_r.
Qed.

(** A bridgeable trailing gap behaves as if its words were highlighted and
    part of the last highlighted run. *)
Lemma word_runs_trailing_gap (p : list flagged_word) (a g : list string) (max_skip_len : Z) :
  a <> [] -> g <> [] -> (Z.of_nat (length g) <= max_skip_len)%Z ->
  extract_word_runs (app p (app (hl a) (unhl g))) max_skip_len
  = extract_word_runs (app p (hl (app a g))) max_skip_len.
Proof.
  intros Ha Hg Hk.
  assert (Eg : groupby snd (unhl g) = [(false, unhl g)]).
  { rewrite <- (app_nil_r (unhl g)).
    rewrite groupby_block with (k := false);
      [rewrite app_nil_r; reflexivity | now apply unhl_nonempty | apply unhl_all | exact I]. }
  assert (E1 : groupby snd (app (hl a) (unhl g)) = [(true, hl a); (false, unhl g)]).
  { rewrite groupby_block with (k := true);
      [now rewrite Eg | now apply hl_nonempty | apply hl_all | rewrite Eg; discriminate]. }
  assert (E2 : groupby snd (hl (app a g)) = [(true, hl (app a g))]).
  { apply groupby_hl. destruct a; simpl; congruence. }
  unfold extract_word_runs, runs.
  rewrite !(groupby_app snd p), E1, E2.
  destruct (fold_groups_prefix (A := string * bool) snd p true (hl a) (hl (app a g))
              [(false, unhl g)] [])
    as (pre & h & F1 & F2).
  rewrite F1, F2. unfold marked_skips, merged_runs.
  rewrite !map_app. simpl.
  rewrite !map_app, !map_fst_hl, map_fst_unhl.
  apply Z.leb_le in Hk. rewrite Hk.
  set (M := map _ (map _ pre)).
  rewrite !groupby_app.
  set (X := app (map fst h) a).
  assert (G1 : groupby fst [(true, X); (true, g)] = [(true, [(true, X); (true, g)])])
    by reflexivity.
  assert (G2 : groupby fst [(true, app (map fst h) (app a g))]
               = [(true, [(true, app (map fst h) (app a g))])]) by reflexivity.
  rewrite G1, G2.
  destruct (fold_groups_prefix fst M true [(true, X); (true, g)]
              [(true, app (map fst h) (app a g))] [] [])
    as (pre' & h' & H1 & H2).
  rewrite H1, H2, !List.filter_app, !map_app. simpl.
  rewrite !map_app, !concat_app. simpl. unfold X.
  now rewrite !app_nil_r, <- !app_assoc.
Qed.


(** C1: on [T,T,F,F,F,T,T], max_skip_len 3 gives one run of all seven
    words and max_skip_len 2 gives the runs "w1 w2" and "w6 w7"; in general
    an unhighlighted run of length exactly max_skip_len between two
    highlighted runs is bridged and its words joined in order. *)
Theorem run_merger_bounded_skip :
  extract_text_runs example_words 3 = ["w1 w2 w3 w4 w5 w6 w7"] /\
  extract_text_runs example_words 2 = ["w1 w2"; "w6 w7"] /\
  (forall (a g b : list string) (max_skip_len : Z),
     a <> [] -> g <> [] -> b <> [] -> Z.of_nat (length g) = max_skip_len ->
     extract_text_runs (app (hl a) (app (unhl g) (hl b))) max_skip_len
     = [String.concat " " (app a (app g b))]).
Proof.
  split; [reflexivity|]. split; [reflexivity|].
  intros a g b k Ha Hg Hb Hk. unfold extract_text_runs.
  rewrite word_runs_bridge by (assumption || lia). reflexivity.
Qed.

Lemma run_merger_bounded_skip_witness :
  extract_text_runs (app (hl ["x"]) (app (unhl ["y"; "z"]) (hl ["t"]))) 2 = ["x y z t"].
Proof.
  apply (proj2 (proj2 run_merger_bounded_skip) ["x"] ["y"; "z"] ["t"] 2%Z);
    [discriminate | discriminate | discriminate | reflexivity].
Defined.

(** C2 (refuted): a trailing unhighlighted word within the skip length is
    part of the output run, although no highlighted run follows it. *)
Lemma trailing_gap_counterexample :
  extract_text_runs (app (hl ["a"]) (unhl ["b"])) 3 = ["a b"].
Proof. reflexivity. Qed.

(** C2 (amended): a trailing group of unhighlighted words of length at most
    max_skip_len after a highlighted run is merged into that run: the runs
    are those obtained if the trailing words were highlighted. *)
Theorem trailing_gap_merged (p : list flagged_word) (a g : list string) (max_skip_len : Z) :
  a <> [] -> g <> [] -> (Z.of_nat (length g) <= max_skip_len)%Z ->
  extract_word_runs (app p (app (hl a) (unhl g))) max_skip_len
  = extract_word_runs (app p (hl (app a g))) max_skip_len.
Proof. apply word_runs_trailing_gap. Qed.

Lemma trailing_gap_merged_witness :
  extract_word_runs (app (unhl ["p"; "q"; "r"; "s"]) (app (hl ["a"]) (unhl ["b"]))) 3
  = extract_word_runs (app (unhl ["p"; "q"; "r"; "s"]) (hl (app ["a"] ["b"]))) 3.
Proof. apply trailing_gap_merged; [discriminate | discriminate | simpl; lia]. Defined.

(** C3 (code bug): a page whose two words are both unhighlighted, with
    max_skip_len 3, still yields one output run. *)
Theorem unhighlighted_page_yields_run :
  extract_text_runs (unhl ["Page"; "12"]) 3 = ["Page 12"].
Proof. reflexivity. Qed.

(* ------------------------------------------------------------------ *)
(** ** Centroid matcher *)

Section LocatorFacts.
Local Open Scope Q_scope.


























End LocatorFacts.

Section GeometryClaims.
Local Open Scope Q_scope.




(** C5: a merged Shape is classified Selection iff it has exactly one
    interior ring whose area exceeds the threshold, and Textual otherwise
    (no hole, several holes, or a single hole of area at most the
    threshold). *)
Theorem classify_highlight_spec (s : Shape) (t : Q) :
  (classify_highlight s t = SELECTION <->
     exists ring, interiors s = [ring] /\ t < ring_area ring) /\
  (classify_highlight s t = TEXTUAL <->
     List.length (interiors s) <> 1%nat \/
     exists ring, interiors s = [ring] /\ ring_area ring <= t).
Proof.
  unfold classify_highlight.
  destruct (interiors s) as [|r [|r' rest]] eqn:Ei.
  - split; split; try discriminate.
    + intros (ring & Hr & _). discriminate.
    + intros _. left. simpl. lia.
    + intros _. reflexivity.
  - destruct (Qlt_le_dec t (ring_area r)) as [H|H]; split; split.
    + intros _. now exists r.
    + intros _. reflexivity.
    + discriminate.
    + intros [Hl | (ring & Hr & Hle)]; [simpl in Hl; lia|].
      injection Hr as <-. exfalso. apply (Qlt_not_le _ _ H Hle).
    + discriminate.
    + intros (ring & Hr & Hlt). injection Hr as <-. exfalso. apply (Qlt_not_le _ _ Hlt H).
    + intros _. right. now exists r.
    + intros _. reflexivity.
  - split; split; try discriminate.
    + intros (ring & Hr & _). discriminate.
    + intros _. left. simpl. lia.
    + intros _. reflexivity.
Qed.


(** C9 (refuted): with a crop box whose bottom y is non-zero, the
    normalizer does not map (0, 0) to (0, page_height - 0). *)
Lemma normalizer_offset_counterexample :
  coordinate_transformer offset_crop_box (mkShape [(0, 0)] [])
  = mkShape [(0, 110)] [] /\
  ~ (snd (to_fitz_coord offset_crop_box (0, 0)) == crop_height offset_crop_box - 0).
Proof.
  split; [reflexivity|]. unfold Qeq. simpl. lia.
Qed.

(** C9 (amended): the normalizer maps every point (x, y) of every ring of a
    Shape to (x, y1 - y), where y1 = CropBox[-1] is the crop box's upper y
    coordinate; this is (x, page_height - y + y0) with y0 the crop box's
    bottom y, so it is (x, page_height - y) exactly when y0 is 0. *)
Theorem normalizer_uses_crop_top (crop_box : Rect) (s : Shape) :
  coordinate_transformer crop_box s
  = mkShape (map (fun p => (fst p, by1 crop_box - snd p)) (exterior s))
            (map (map (fun p => (fst p, by1 crop_box - snd p))) (interiors s)) /\
  (forall x y : Q, snd (to_fitz_coord crop_box (x, y)) == crop_height crop_box - y + by0 crop_box) /\
  ((forall x y : Q, snd (to_fitz_coord crop_box (x, y)) == crop_height crop_box - y) <->
   by0 crop_box == 0).
Proof.
  split; [reflexivity|].
  unfold to_fitz_coord, crop_height; simpl.
  split; [intros; ring|].
  split.
  - intros H. specialize (H 0 0). lra.
  - intros H x y. rewrite H. ring.
Qed.

End GeometryClaims.

(** Witnesses for the two geometric theorems stated with inner conditions. *)
Section GeometryWitnesses.
Local Open Scope Q_scope.

Lemma classify_highlight_spec_witness :
  classify_highlight (mkShape [] [[(0, 0); (0, 20); (60, 20); (60, 0)]]) 1000 = SELECTION.
Proof.
  apply (proj1 (classify_highlight_spec _ 1000)).
  exists [(0, 0); (0, 20); (60, 20); (60, 0)]. split; [reflexivity|].
  unfold Qlt; vm_compute; reflexivity.
Defined.

Lemma normalizer_uses_crop_top_witness :
  snd (to_fitz_coord (mkRect 0 0 100 100) (3, 40)) == crop_height (mkRect 0 0 100 100) - 40.
Proof.
  apply (proj2 (proj2 (proj2 (normalizer_uses_crop_top (mkRect 0 0 100 100) (mkShape [] [])))));
    reflexivity.
Defined.

End GeometryWitnesses.

(* ------------------------------------------------------------------ *)
(** ** Tokenizer *)


Lemma tokenize_tokens_segments (tokens stack : list string) :
  exists segs tail,
    tokens = app (flatten_segments segs) tail /\
    Forall segment_ok segs /\
    Forall (fun t => is_path_op t = false) tail /\
    tokenize_tokens stack tokens =
      match segs with
      | [] => []
      | (args, op) :: rest =>
          (op, app stack args) :: map (fun seg => (snd seg, fst seg)) rest
      end.
Proof.
  revert stack. induction tokens as [|t ts IH]; intros stack.
  - exists [], []. repeat split; constructor.
  - simpl. destruct (is_path_op t) eqn:Et.
    + destruct (IH []) as (segs & tail & Hts & Hsegs & Htail & Htok).
      exists (([], t) :: segs), tail. repeat split.
      * simpl. unfold flatten_segments in Hts. now rewrite Hts.
      * constructor; [split; [constructor | exact Et] | exact Hsegs].
      * exact Htail.
      * rewrite Htok, app_nil_r. f_equal.
        destruct segs as [|[args op] rest]; simpl; reflexivity.
    + destruct (IH (app stack [t])) as (segs & tail & Hts & Hsegs & Htail & Htok).
      destruct segs as [|[args op] rest].
      * exists [], (t :: tail). repeat split.
        -- simpl in *. now rewrite Hts.
        -- constructor.
        -- now constructor.
        -- exact Htok.
      * exists ((t :: args, op) :: rest), tail. repeat split.
        -- simpl in *. now rewrite Hts.
        -- inversion Hsegs as [|? ? [Ha Ho] Hr]; subst.
           constructor; [split; [constructor; assumption | exact Ho] | exact Hr].
        -- exact Htail.
        -- rewrite Htok. now rewrite <- app_assoc.
Qed.

(** C7: every token sequence splits into records (literal arguments, then
    one operator token) followed by literal tokens; the tokenizer emits one
    (operator, arguments) pair per record, in order, with exactly the
    literals since the previous operator, and no other pair. *)
Theorem tokenizer_complete (tokens : list string) :
  exists segs tail,
    tokens = app (flatten_segments segs) tail /\
    Forall segment_ok segs /\
    Forall (fun t => is_path_op t = false) tail /\
    tokenize_tokens [] tokens = map (fun seg => (snd seg, fst seg)) segs.
Proof.
  destruct (tokenize_tokens_segments tokens []) as (segs & tail & H1 & H2 & H3 & H4).
  exists segs, tail. repeat split; try assumption.
  rewrite H4. destruct segs as [|[args op] rest]; reflexivity.
Qed.

Example tokenize_graphics_example :
  tokenize_graphics "1 0.952941 0.658824 RG 12.5 w 0 0 m 3 4 foo l S"
  = Ok [("RG", ["1"; "0.952941"; "0.658824"]); ("w", ["12.5"]); ("m", ["0"; "0"]);
        ("l", ["3"; "4"; "foo"]); ("S", [])].
Proof. reflexivity. Qed.

(* ------------------------------------------------------------------ *)
(** ** Splitting the decoded content *)

Section TokenizerSplit.
Local Open Scope string_scope.

Lemma append_cons (c : Ascii.ascii) (s b : string) :
  String.append (String c s) b = String c (String.append s b).
Proof. reflexivity. Qed.

Lemma bind_ok_app (r : Result (list (Z * string))) (x : Z * string) (xs : list (Z * string)) :
  (rest ← (ys ← r; Ok (app xs ys)); Ok (x :: rest)) = (ys ← r; Ok (app (x :: xs) ys)).
Proof. destruct r; reflexivity. Qed.

Lemma utf8_decode_app (a b : string) (xs : list (Z * string)) :
  utf8_decode a = Ok xs ->
  utf8_decode (String.append a b) = (ys ← utf8_decode b; Ok (app xs ys)).
Proof.
  revert xs. induction a as [a IH] using (induction_ltof1 _ String.length).
  destruct a as [|c0 s1]; intros xs H.
  { injection H as <-. change (String.append "" b) with b. destruct (utf8_decode b); reflexivity. }
  rewrite append_cons. simpl in H |- *.
  destruct (byte_in 0 127 c0).
  { destruct (utf8_decode s1) as [r|e] eqn:D; cbn [mbind result_bind] in H; [|discriminate].
    injection H as <-. rewrite (IH s1 ltac:(unfold ltof; simpl; lia) r D).
    apply bind_ok_app. }
  destruct (byte_in 194 223 c0).
  { destruct s1 as [|c1 s2]; [discriminate|]. rewrite append_cons. simpl in H |- *.
    destruct (cont_byte c1); [|discriminate].
    destruct (utf8_decode s2) as [r|e] eqn:D; cbn [mbind result_bind] in H; [|discriminate].
    injection H as <-. rewrite (IH s2 ltac:(unfold ltof; simpl; lia) r D).
    apply bind_ok_app. }
  destruct (byte_in 224 239 c0).
  { destruct s1 as [|c1 [|c2 s3]]; try discriminate. rewrite !append_cons. simpl in H |- *.
    destruct (_ && _); [|discriminate].
    destruct (utf8_decode s3) as [r|e] eqn:D; cbn [mbind result_bind] in H; [|discriminate].
    injection H as <-. rewrite (IH s3 ltac:(unfold ltof; simpl; lia) r D).
    apply bind_ok_app. }
  destruct (byte_in 240 244 c0); [|discriminate].
  destruct s1 as [|c1 [|c2 [|c3 s4]]]; try discriminate. rewrite !append_cons. simpl in H |- *.
  destruct (_ && _ && _); [|discriminate].
  destruct (utf8_decode s4) as [r|e] eqn:D; cbn [mbind result_bind] in H; [|discriminate].
  injection H as <-. rewrite (IH s4 ltac:(unfold ltof; simpl; lia) r D).
  apply bind_ok_app.
Qed.

Lemma string_append_assoc (a b c : string) :
  String.append (String.append a b) c = String.append a (String.append b c).
Proof. induction a as [|x a IH]; [reflexivity|]. rewrite !append_cons, IH. reflexivity. Qed.

Lemma string_append_empty (a : string) : String.append a "" = a.
Proof. induction a as [|x a IH]; [reflexivity|]. rewrite append_cons, IH. reflexivity. Qed.

(** Each decoded character carries its bytes: they spell the input. *)
Lemma utf8_decode_bytes (a : string) (cs : list (Z * string)) :
  utf8_decode a = Ok cs -> char_bytes cs = a.
Proof.
  revert cs. induction a as [a IH] using (induction_ltof1 _ String.length).
  destruct a as [|c0 s1]; intros cs H.
  { injection H as <-. reflexivity. }
  simpl in H.
  destruct (byte_in 0 127 c0).
  { destruct (utf8_decode s1) as [r|e] eqn:D; cbn [mbind result_bind] in H; [|discriminate].
    injection H as <-. simpl. rewrite (IH s1 ltac:(unfold ltof; simpl; lia) r D). reflexivity. }
  destruct (byte_in 194 223 c0).
  { destruct s1 as [|c1 s2]; [discriminate|].
    destruct (cont_byte c1); [|discriminate].
    destruct (utf8_decode s2) as [r|e] eqn:D; cbn [mbind result_bind] in H; [|discriminate].
    injection H as <-. simpl. rewrite (IH s2 ltac:(unfold ltof; simpl; lia) r D). reflexivity. }
  destruct (byte_in 224 239 c0).
  { destruct s1 as [|c1 [|c2 s3]]; try discriminate.
    destruct (_ && _); [|discriminate].
    destruct (utf8_decode s3) as [r|e] eqn:D; cbn [mbind result_bind] in H; [|discriminate].
    injection H as <-. simpl. rewrite (IH s3 ltac:(unfold ltof; simpl; lia) r D). reflexivity. }
  destruct (byte_in 240 244 c0); [|discriminate].
  destruct s1 as [|c1 [|c2 [|c3 s4]]]; try discriminate.
  destruct (_ && _ && _); [|discriminate].
  destruct (utf8_decode s4) as [r|e] eqn:D; cbn [mbind result_bind] in H; [|discriminate].
  injection H as <-. simpl. rewrite (IH s4 ltac:(unfold ltof; simpl; lia) r D). reflexivity.
Qed.

Lemma split_go_word (cs rest : list (Z * string)) (cur : string) :
  Forall (fun ch => is_py_space (fst ch) = false) cs ->
  split_go (app cs rest) cur = split_go rest (String.append cur (char_bytes cs)).
Proof.
  revert cur. induction cs as [|[cp bytes] cs IH]; intros cur Hcs.
  - simpl. now rewrite string_append_empty.
  - inversion Hcs as [|? ? Hc Hr]; subst. simpl in Hc |- *. rewrite Hc, IH by exact Hr.
    now rewrite string_append_assoc.
Qed.

Lemma split_join_go (tokens : list string) :
  Forall (fun tok => exists cs, utf8_decode tok = Ok cs /\ cs <> [] /\
                     Forall (fun ch => is_py_space (fst ch) = false) cs) tokens ->
  exists cs, utf8_decode (String.concat " " tokens) = Ok cs /\ split_go cs "" = tokens.
Proof.
  induction tokens as [|t ts IH]; intros Hall.
  { exists []. split; reflexivity. }
  inversion Hall as [|? ? (cs & Hd & Hne & Hsp) Hts]; subst.
  assert (Ht : String.eqb t "" = false).
  { apply String.eqb_neq. intros ->. simpl in Hd. injection Hd as <-. congruence. }
  destruct ts as [|t' ts].
  - exists cs. split; [exact Hd|].
    rewrite <- (app_nil_r cs), split_go_word by exact Hsp. simpl.
    rewrite (utf8_decode_bytes t cs Hd). change (String.append "" t) with t.
    rewrite Ht. reflexivity.
  - destruct (IH Hts) as (cs' & Hd' & Hs').
    exists (app cs ((32%Z, " ") :: cs')). split.
    + change (String.concat " " (t :: t' :: ts))
        with (String.append t (String.append " " (String.concat " " (t' :: ts)))).
      rewrite (utf8_decode_app t _ cs Hd).
      rewrite (utf8_decode_app " " _ [(32%Z, " ")] eq_refl), Hd'. reflexivity.
    + rewrite split_go_word by exact Hsp. simpl.
      rewrite (utf8_decode_bytes t cs Hd). change (String.append "" t) with t.
      rewrite Ht, Hs'. reflexivity.
Qed.

(** The tokens of a content stream whose tokens are valid UTF-8, non-empty
    and free of whitespace, written with single spaces between them, are
    exactly those tokens: the split gives them back, and tokenize_graphics
    processes exactly that token sequence. *)
Theorem py_split_join (tokens : list string) :
  Forall (fun tok => exists cs, utf8_decode tok = Ok cs /\ cs <> [] /\
                     Forall (fun ch => is_py_space (fst ch) = false) cs) tokens ->
  py_split (String.concat " " tokens) = Ok tokens /\
  tokenize_graphics (String.concat " " tokens) = Ok (tokenize_tokens [] tokens).
Proof.
  intros Hall. destruct (split_join_go tokens Hall) as (cs & Hd & Hs).
  assert (Hp : py_split (String.concat " " tokens) = Ok tokens).
  { unfold py_split. rewrite Hd. cbn [mbind result_bind]. now rewrite Hs. }
  split; [exact Hp|]. unfold tokenize_graphics. rewrite Hp. reflexivity.
Qed.

End TokenizerSplit.

Lemma py_split_join_witness :
  py_split (String.concat " " ["1"; String (Ascii.ascii_of_nat 195) (String (Ascii.ascii_of_nat 169) ""); "RG"])
  = Ok ["1"; String (Ascii.ascii_of_nat 195) (String (Ascii.ascii_of_nat 169) ""); "RG"] /\
  tokenize_graphics (String.concat " " ["1"; String (Ascii.ascii_of_nat 195) (String (Ascii.ascii_of_nat 169) ""); "RG"])
  = Ok (tokenize_tokens [] ["1"; String (Ascii.ascii_of_nat 195) (String (Ascii.ascii_of_nat 169) ""); "RG"]).
Proof.
  apply py_split_join.
  repeat (apply List.Forall_cons; [eexists; split; [reflexivity | split; [discriminate | repeat constructor]] |]).
  apply List.Forall_nil.
Defined.

(* ------------------------------------------------------------------ *)
(** ** Stroke interpreter *)


Section InterpFacts.
Variable py_float : string -> option Q.
Variable py_int : string -> option Z.
Variable buffer : list Point -> Q -> CapStyle -> JoinStyle -> Shape.

Local Abbreviation step := (Interpreter.step py_float py_int buffer).
Local Abbreviation interp := (Interpreter.interp py_float py_int buffer).

Lemma step_unarmed (st : LineState) (op : string) (args : list string) :
  armed st = false -> ~ (op = "RG" /\ args = YELLOW) -> step st (op, args) = Ok (st, None).
Proof.
  intros Ha Hn. unfold Interpreter.step.
  destruct (String.eqb op "RG" && bool_decide (args = YELLOW)) eqn:E.
  - apply andb_true_iff in E as [E1 E2].
    apply String.eqb_eq in E1. apply bool_decide_eq_true in E2. tauto.
  - unfold armed in Ha. destruct (current_line st) as [[|x l]|]; try discriminate; reflexivity.
Qed.

Lemma interp_unarmed (ops : list (string * list string)) (st : LineState) :
  armed st = false -> (forall args, In ("RG", args) ops -> args <> YELLOW) ->
  interp st ops = ([], None).
Proof.
  revert st. induction ops as [|[op args] ops IH]; intros st Ha Hrg; [reflexivity|].
  cbn [Interpreter.interp]. rewrite step_unarmed; [| exact Ha |].
  - rewrite IH; [reflexivity | exact Ha |]. intros a Hin. apply Hrg. now right.
  - intros [-> ->]. apply (Hrg YELLOW); [now left | reflexivity].
Qed.

(** C6: an RG operator arms the interpreter only when its argument list is
    literally ("1", "0.952941", "0.658824"); an operator sequence whose RG
    operators all carry other arguments yields no Shape (and raises
    nothing). *)
Theorem rg_exact_match_arms :
  (forall (st : LineState) (args : list string), armed st = false ->
     exists st', step st ("RG", args) = Ok (st', None) /\
                 (armed st' = true <-> args = YELLOW)) /\
  (forall ops : list (string * list string),
     (forall args, In ("RG", args) ops -> args <> YELLOW) ->
     interp init_state ops = ([], None)).
Proof.
  split.
  - intros st args Ha. destruct (decide (args = YELLOW)) as [->|Hne].
    + eexists. split; [reflexivity|]. split; reflexivity.
    + exists st. split; [apply step_unarmed; tauto|]. rewrite Ha. split; [discriminate | tauto].
  - intros ops Hrg. apply interp_unarmed; [reflexivity | exact Hrg].
Qed.

Lemma CAP_STYLES_defined (n : Z) : CAP_STYLES n <> None <-> (n = 1 \/ n = 2 \/ n = 3)%Z.
Proof.
  destruct n as [|[[p|p|]|[p|p|]|]|p]; simpl; split; intros H;
    try congruence; try (destruct H as [H|[H|H]]; discriminate); auto.
Qed.

Lemma JOIN_STYLES_defined (n : Z) : JOIN_STYLES n <> None <-> (n = 1 \/ n = 2 \/ n = 3)%Z.
Proof.
  destruct n as [|[[p|p|]|[p|p|]|]|p]; simpl; split; intros H;
    try congruence; try (destruct H as [H|[H|H]]; discriminate); auto.
Qed.

(** C10: the cap and join style tables are defined exactly on 1, 2 and 3;
    while a stroke is armed, a J or j operator whose integer argument is
    any other value raises KeyError. *)
Theorem style_lookup_partial :
  (forall n : Z, CAP_STYLES n <> None <-> (n = 1 \/ n = 2 \/ n = 3)%Z) /\
  (forall n : Z, JOIN_STYLES n <> None <-> (n = 1 \/ n = 2 \/ n = 3)%Z) /\
  (forall (st : LineState) (s : string) (rest : list string) (n : Z),
     armed st = true -> py_int s = Some n -> ~ (n = 1 \/ n = 2 \/ n = 3)%Z ->
     step st ("J", s :: rest) = Raise KeyError /\
     step st ("j", s :: rest) = Raise KeyError).
Proof.
  split; [exact CAP_STYLES_defined|]. split; [exact JOIN_STYLES_defined|].
  intros st s rest n Ha Hs Hn.
  assert (Hc : CAP_STYLES n = None)
    by (destruct (CAP_STYLES n) eqn:E; [|reflexivity];
        exfalso; apply Hn, CAP_STYLES_defined; congruence).
  assert (Hj : JOIN_STYLES n = None)
    by (destruct (JOIN_STYLES n) eqn:E; [|reflexivity];
        exfalso; apply Hn, JOIN_STYLES_defined; congruence).
  unfold Interpreter.step, arg_int. unfold armed in Ha.
  destruct (current_line st) as [[|x l]|]; try discriminate.
  simpl. rewrite Hs. simpl. rewrite Hc, Hj. split; reflexivity.
Qed.

End InterpFacts.

(* ------------------------------------------------------------------ *)
(** ** extract_highlights and the word selection method name *)

Section PipelineFacts.
Variable Page Pixmap : Type.
Variable page_number : Page -> Z.
Variable page_highlight_lines : Page -> Result (list Shape).
Variable merge_highlight_lines : list Shape -> Result (list Shape).
Variable extract_clip : Page -> Shape -> Result Pixmap.
Variable extract_text_highlights :
  list Shape -> Page -> WordSelectionMethod -> Z -> Result (list string).

Local Abbreviation process_page :=
  (Pipeline.process_page Page Pixmap page_number page_highlight_lines
     merge_highlight_lines extract_clip extract_text_highlights).
Local Abbreviation process_pages :=
  (Pipeline.process_pages Page Pixmap page_number page_highlight_lines
     merge_highlight_lines extract_clip extract_text_highlights).
Local Abbreviation extract_highlights :=
  (Pipeline.extract_highlights Page Pixmap page_number page_highlight_lines
     merge_highlight_lines extract_clip extract_text_highlights).
Local Abbreviation no_textual :=
  (Pipeline.no_textual Page page_highlight_lines merge_highlight_lines).
Local Abbreviation main :=
  (Pipeline.main Page Pixmap page_number page_highlight_lines
     merge_highlight_lines extract_clip extract_text_highlights).


Lemma process_page_name_irrelevant (k : Z) (name : string) (thr : Q)
    (acc : Acc Pixmap) (page : Page) :
  no_textual page thr ->
  process_page k name thr acc page = process_page k "CENTROID" thr acc page.
Proof.
  intros Hno. unfold Pipeline.process_page. destruct acc as [m1 m2].
  destruct (page_highlight_lines page) as [lines|e] eqn:El; [|reflexivity].
  cbn [mbind result_bind].
  destruct lines as [|l ls]; [reflexivity|].
  destruct (merge_highlight_lines (l :: ls)) as [polys|e] eqn:Em; [|reflexivity].
  cbn [mbind result_bind].
  assert (Ht : fst (classify_highlights polys thr) = [])
    by (apply (Hno (l :: ls)); [exact El | discriminate | exact Em]).
  destruct (classify_highlights polys thr) as [tp sp]. simpl in Ht. subst tp.
  reflexivity.
Qed.

Lemma process_pages_name_irrelevant (k : Z) (name : string) (thr : Q) (doc : list Page) :
  (forall page, In page doc -> no_textual page thr) ->
  forall acc, process_pages k name thr acc doc = process_pages k "CENTROID" thr acc doc.
Proof.
  induction doc as [|page doc IH]; intros Hdoc acc; [reflexivity|].
  simpl. rewrite process_page_name_irrelevant by (apply Hdoc; now left).
  destruct (process_page k "CENTROID" thr acc page) as [acc'|e]; [|reflexivity].
  cbn [mbind result_bind]. apply IH. intros p Hp. apply Hdoc. now right.
Qed.

Lemma find_none_forall {A} (f : A -> bool) (l : list A) :
  (forall x, In x l -> f x = false) -> List.find f l = None.
Proof.
  induction l as [|x l IH]; intros H; [reflexivity|]. simpl.
  rewrite (H x (or_introl eq_refl)). apply IH. intros y Hy. apply H. now right.
Qed.

(** C8: main validates the word-selection method name before it opens the
    document.  click's Choice option rejects a name that equals no member
    name of WordSelectionMethod up to case with BadParameter, so main fails
    on every document, whatever its pages hold; a name it accepts is
    replaced by the member name it matches, whose later lookup succeeds. *)
Theorem method_name_validated_up_front :
  (forall name : string,
     Forall (fun c => string_lower c <> string_lower name) METHOD_NAMES ->
     click_choice METHOD_NAMES name = Raise BadParameter /\
     forall (doc : list Page) (k : Z) (thr : Q), main doc k name thr = Raise BadParameter) /\
  (forall name name' : string,
     click_choice METHOD_NAMES name = Ok name' ->
     In name' METHOD_NAMES /\ exists m, lookup_method name' = Ok m).
Proof.
  split.
  - intros name Hall.
    assert (Hc : click_choice METHOD_NAMES name = Raise BadParameter).
    { unfold click_choice.
      replace (existsb (String.eqb name) METHOD_NAMES) with false.
      + replace (List.find _ METHOD_NAMES) with (@None string); [reflexivity|].
        symmetry. apply find_none_forall. intros c Hin.
        rewrite List.Forall_forall in Hall. specialize (Hall c Hin).
        destruct (String.eqb_spec (string_lower c) (string_lower name)); congruence.
      + symmetry. apply not_true_iff_false. rewrite existsb_exists.
        intros [c [Hin Heq]]. apply String.eqb_eq in Heq. subst c.
        rewrite List.Forall_forall in Hall. exact (Hall name Hin eq_refl). }
    split; [exact Hc|]. intros doc k thr. unfold Pipeline.main. rewrite Hc. reflexivity.
  - intros name name' Hc.
    assert (Hin : In name' METHOD_NAMES).
    { unfold click_choice in Hc.
      destruct (existsb (String.eqb name) METHOD_NAMES) eqn:E.
      + injection Hc as <-. apply existsb_exists in E as [c [Hin Heq]].
        apply String.eqb_eq in Heq. subst c. exact Hin.
      + destruct (List.find _ METHOD_NAMES) as [c|] eqn:F; [|discriminate].
        injection Hc as <-. apply find_some in F as [Hin _]. exact Hin. }
    split; [exact Hin|].
    destruct Hin as [<-|[<-|[]]]; eexists; reflexivity.
Qed.

(** extract_highlights itself does not validate the method name.  On a
    document where no page yields a Textual polygon its result is the same
    for every name, known or not; the name is looked up (and an unknown one
    raises KeyError) only when a page with a Textual polygon is processed. *)
Theorem method_name_checked_lazily :
  (forall (doc : list Page) (k : Z) (name : string) (thr : Q),
     (forall page, In page doc -> no_textual page thr) ->
     extract_highlights doc k name thr = extract_highlights doc k "CENTROID" thr) /\
  (forall (page : Page) (rest : list Page) (k : Z) (name : string) (thr : Q)
          (lines polys : list Shape) (clips : list Pixmap),
     lookup_method name = Raise KeyError ->
     page_highlight_lines page = Ok lines -> lines <> [] ->
     merge_highlight_lines lines = Ok polys ->
     fst (classify_highlights polys thr) <> [] ->
     mapM (extract_clip page) (snd (classify_highlights polys thr)) = Ok clips ->
     extract_highlights (page :: rest) k name thr = Raise KeyError).
Proof.
  split.
  - intros doc k name thr Hdoc. apply process_pages_name_irrelevant. exact Hdoc.
  - intros page rest k name thr lines polys clips Hname El Hne Em Ht Hc.
    unfold Pipeline.extract_highlights. simpl.
    unfold Pipeline.process_page. rewrite El. cbn [mbind result_bind].
    destruct lines as [|l ls]; [congruence|].
    rewrite Em. cbn [mbind result_bind].
    destruct (classify_highlights polys thr) as [tp sp]. simpl in Ht, Hc.
    destruct tp as [|t tp]; [congruence|].
    destruct sp as [|s sp].
    + cbn [mbind result_bind]. rewrite Hname. reflexivity.
    + rewrite Hc. cbn [mbind result_bind]. rewrite Hname. reflexivity.
Qed.

End PipelineFacts.

(* ------------------------------------------------------------------ *)
(** ** Witnesses and counterexamples on concrete inputs *)

Lemma rg_exact_match_arms_witness :
  highlighter_lines decimal_float decimal_int outline
    "q 1 0.952942 0.658824 RG 12 w 1 J 1 j 0 0 m 10 0 l S Q" = ([], None).
Proof.
  unfold highlighter_lines.
  apply (proj2 (rg_exact_match_arms decimal_float decimal_int outline)).
  intros args Hin. vm_compute in Hin.
  repeat destruct Hin as [Hin|Hin];
    try (injection Hin; intros; subst; try discriminate; unfold YELLOW; discriminate);
    destruct Hin.
Defined.

Example yellow_stroke_example :
  highlighter_lines decimal_float decimal_int outline
    "q 1 0.952941 0.658824 RG 12 w 1 J 1 j 0 0 m 10 0 l S Q"
  = ([outline [(0, 0); (10, 0)]%Q (12 / 2)%Q CapRound JoinRound], None).
Proof. reflexivity. Qed.

Example cap_zero_example :
  highlighter_lines decimal_float decimal_int outline
    "q 1 0.952941 0.658824 RG 12 w 0 J 1 j 0 0 m 10 0 l S Q" = ([], Some KeyError).
Proof. reflexivity. Qed.

Lemma style_lookup_partial_witness :
  step decimal_float decimal_int outline (mkLineState (Some [None]) None None None) ("J", ["0"])
    = Raise KeyError /\
  step decimal_float decimal_int outline (mkLineState (Some [None]) None None None) ("j", ["0"])
    = Raise KeyError.
Proof.
  apply (proj2 (proj2 (style_lookup_partial decimal_float decimal_int outline))
           (mkLineState (Some [None]) None None None) "0" [] 0%Z);
    [reflexivity | reflexivity | lia].
Defined.


Lemma method_name_validated_up_front_witness :
  example_main [(0%Z, []); (1%Z, [loop_shape])] 3 "BOGUS" 1000 = Raise BadParameter /\
  click_choice METHOD_NAMES "Area_Ratio" = Ok "AREA_RATIO" /\
  (In "AREA_RATIO" METHOD_NAMES /\ exists m, lookup_method "AREA_RATIO" = Ok m).
Proof.
  destruct (method_name_validated_up_front (Z * list Shape) Shape fst (fun p => Ok (snd p)) Ok
              (fun _ s => Ok s) (fun _ _ _ _ => Ok ["highlighted text"])) as [P1 P2].
  split; [|split; [reflexivity|]].
  - apply P1. repeat constructor; discriminate.
  - apply (P2 "Area_Ratio"). reflexivity.
Defined.

Lemma method_name_checked_lazily_witness :
  example_extract [(0%Z, []); (1%Z, [loop_shape])] 3 "BOGUS" 1000
  = example_extract [(0%Z, []); (1%Z, [loop_shape])] 3 "CENTROID" 1000 /\
  example_extract [(0%Z, [stroke_shape])] 3 "BOGUS" 1000 = Raise KeyError.
Proof.
  destruct (method_name_checked_lazily (Z * list Shape) Shape fst (fun p => Ok (snd p)) Ok
              (fun _ s => Ok s) (fun _ _ _ _ => Ok ["highlighted text"])) as [P1 P2].
  split.
  - apply P1. intros page Hin lines polys El Hne Em.
    destruct Hin as [<-|[<-|[]]]; simpl in El; injection El as <-; [congruence|].
    injection Em as <-. reflexivity.
  - apply (P2 (0%Z, [stroke_shape]) [] 3%Z "BOGUS" 1000%Q [stroke_shape] [stroke_shape] []);
      try reflexivity; discriminate.
Defined.

(* ------------------------------------------------------------------ *)
(** ** Further properties of the code *)

Section GeometryExtras.
Local Open Scope Q_scope.

(** classify_highlights splits the polygons into the Textual ones and the
    Selection ones, each list in input order, losing and duplicating none. *)
Theorem classify_highlights_partition (polys : list Shape) (t : Q) :
  classify_highlights polys t =
  (List.filter (fun p => is_textual (classify_highlight p t)) polys,
   List.filter (fun p => negb (is_textual (classify_highlight p t))) polys).
Proof.
  induction polys as [|p ps IH]; [reflexivity|].
  simpl. rewrite IH. destruct (classify_highlight p t); reflexivity.
Qed.

Lemma box_area_nonneg (w : Rect) : 0 <= box_area w.
Proof. apply Qabs_nonneg. Qed.

Lemma area_ratio_compare (h w : Rect) :
  ~ box_area w == 0 ->
  (word_is_highlighted AREA_RATIO h w = Ok true <-> box_area w < 2 * box_intersection_area h w) /\
  (word_is_highlighted AREA_RATIO h w = Ok false <-> 2 * box_intersection_area h w <= box_area w).
Proof.
  intros Hne. simpl.
  assert (Hpos : 0 < box_area w)
    by (destruct (Qle_lt_or_eq _ _ (box_area_nonneg w)) as [H|H]; [exact H | exfalso; apply Hne; now symmetry]).
  assert (Hb : Qeq_bool (box_area w) 0 = false)
    by (destruct (Qeq_bool (box_area w) 0) eqn:E; [apply Qeq_bool_eq in E; contradiction | reflexivity]).
  rewrite Hb.
  set (o := box_intersection_area h w). set (a := box_area w) in *.
  assert (Hr : (o / a) * a == o) by (field; intro E; apply Hne; exact E).
  assert (Key : DEFAULT_AREA_RATIO < o / a <-> a < 2 * o).
  { unfold DEFAULT_AREA_RATIO. rewrite <- (Qmult_lt_r _ _ _ Hpos), Hr.
    split; intros H; lra. }
  unfold qltb. destruct (Qlt_le_dec DEFAULT_AREA_RATIO (o / a)) as [H|H].
  - split; split; intros E; try discriminate; try reflexivity.
    + now apply Key.
    + exfalso. apply Key in H. lra.
  - split; split; intros E; try discriminate; try reflexivity.
    + exfalso. apply Key in E. apply (Qle_not_lt _ _ H E).
    + destruct (Qlt_le_dec a (2 * o)) as [E'|E']; [|exact E'].
      exfalso. apply Key in E'. apply (Qle_not_lt _ _ H E').
Qed.

Lemma overlap_len_inside (a0 a1 b0 b1 : Q) :
  a0 <= b0 -> b0 <= b1 -> b1 <= a1 -> overlap_len a0 a1 b0 b1 == b1 - b0.
Proof.
  intros H1 H2 H3. unfold overlap_len.
  rewrite (Q.max_r a0 a1) by lra. rewrite (Q.max_r b0 b1) by lra.
  rewrite (Q.min_l a0 a1) by lra. rewrite (Q.min_l b0 b1) by lra.
  rewrite (Q.min_r a1 b1) by lra. rewrite (Q.max_r a0 b0) by lra.
  apply Q.max_r. lra.
Qed.

Lemma overlap_len_apart (a0 a1 b0 b1 : Q) :
  a0 <= a1 -> b0 <= b1 -> (a1 <= b0 \/ b1 <= a0) -> overlap_len a0 a1 b0 b1 == 0.
Proof.
  intros H1 H2 H3. unfold overlap_len.
  rewrite (Q.max_r a0 a1) by lra. rewrite (Q.max_r b0 b1) by lra.
  rewrite (Q.min_l a0 a1) by lra. rewrite (Q.min_l b0 b1) by lra.
  apply Q.max_l.
  destruct H3 as [H|H].
  - rewrite (Q.min_l a1 b1) by lra. rewrite (Q.max_r a0 b0) by lra. lra.
  - rewrite (Q.min_r a1 b1) by lra. rewrite (Q.max_l a0 b0) by lra. lra.
Qed.

(** Under AREA_RATIO, for a non-degenerate word box: a box inside the
    highlight box is matched, and a box on the far side of one of its sides
    is not. *)
Theorem area_ratio_boxes (h w : Rect) :
  bx0 h <= bx1 h -> by0 h <= by1 h -> bx0 w < bx1 w -> by0 w < by1 w ->
  (bx0 h <= bx0 w -> bx1 w <= bx1 h -> by0 h <= by0 w -> by1 w <= by1 h ->
     word_is_highlighted AREA_RATIO h w = Ok true) /\
  (bx1 h <= bx0 w \/ bx1 w <= bx0 h \/ by1 h <= by0 w \/ by1 w <= by0 h ->
     word_is_highlighted AREA_RATIO h w = Ok false).
Proof.
  intros Hh1 Hh2 Hw1 Hw2.
  assert (Ha : box_area w == (bx1 w - bx0 w) * (by1 w - by0 w)).
  { unfold box_area. apply Qabs_pos. apply Qmult_le_0_compat; lra. }
  assert (Hpos : 0 < (bx1 w - bx0 w) * (by1 w - by0 w)).
  { apply Qmult_lt_0_compat; lra. }
  assert (Hne : ~ box_area w == 0) by (rewrite Ha; intros E; rewrite E in Hpos; discriminate).
  destruct (area_ratio_compare h w Hne) as [T F].
  split.
  - intros H1 H2 H3 H4. apply T. unfold box_intersection_area.
    rewrite (overlap_len_inside (bx0 h)), (overlap_len_inside (by0 h)) by lra.
    rewrite Ha. lra.
  - intros Hd. apply F. unfold box_intersection_area.
    rewrite Ha.
    assert (Hdx : bx1 h <= bx0 w \/ bx1 w <= bx0 h -> overlap_len (bx0 h) (bx1 h) (bx0 w) (bx1 w) == 0)
      by (intros; apply overlap_len_apart; lra).
    assert (Hdy : by1 h <= by0 w \/ by1 w <= by0 h -> overlap_len (by0 h) (by1 h) (by0 w) (by1 w) == 0)
      by (intros; apply overlap_len_apart; lra).
    destruct Hd as [Hd|[Hd|[Hd|Hd]]];
      [rewrite Hdx by auto | rewrite Hdx by auto | rewrite Hdy by auto | rewrite Hdy by auto];
      ring_simplify; lra.
Qed.
End GeometryExtras.

Section StrokeCounting.
Variable py_float : string -> option Q.
Variable py_int : string -> option Z.
Variable buffer : list Point -> Q -> CapStyle -> JoinStyle -> Shape.
Local Abbreviation step := (Interpreter.step py_float py_int buffer).
Local Abbreviation interp := (Interpreter.interp py_float py_int buffer).

Lemma step_yield (st st' : LineState) (r : string * list string) (s : Shape) :
  step st r = Ok (st', Some s) -> is_stroke_op r = true /\ armed st = true /\ st' = reset_state.
Proof.
  destruct r as [op args]. unfold Interpreter.step.
  destruct (String.eqb op "RG" && bool_decide (args = YELLOW)) eqn:Erg; [congruence|].
  unfold armed. destruct (current_line st) as [[|p line]|]; try congruence.
  destruct (String.eqb op "m") eqn:Em.
  { destruct (arg_float py_float args 0); [|discriminate]. cbn [mbind result_bind].
    destruct (arg_float py_float args 1); [|discriminate]. cbn [mbind result_bind]. congruence. }
  destruct (String.eqb op "j") eqn:Ej.
  { destruct (arg_int py_int args 0); [|discriminate]. cbn [mbind result_bind].
    destruct (JOIN_STYLES _); congruence. }
  destruct (String.eqb op "J") eqn:EJ.
  { destruct (arg_int py_int args 0); [|discriminate]. cbn [mbind result_bind].
    destruct (CAP_STYLES _); congruence. }
  destruct (String.eqb op "w") eqn:Ew.
  { destruct (arg_float py_float args 0); [|discriminate]. cbn [mbind result_bind]. congruence. }
  destruct (String.eqb op "l") eqn:El.
  { destruct (arg_float py_float args 0); [|discriminate]. cbn [mbind result_bind].
    destruct (arg_float py_float args 1); [|discriminate]. cbn [mbind result_bind]. congruence. }
  destruct (String.eqb op "S") eqn:ES.
  { destruct (width st), (cap_style st), (join_style st); try discriminate.
    destruct (length (p :: line) <=? 1)%nat; [discriminate|].
    destruct (all_points (p :: line)); [|discriminate]. cbn [mbind result_bind].
    intros E. injection E as <- _. unfold is_stroke_op. simpl. rewrite ES. auto. }
  destruct (String.eqb op "cm"); [destruct (bool_decide (args = ["1"; "0"; "0"; "1"; "0"; "0"]))|]; congruence.
Qed.

Lemma step_arms (st st' : LineState) (r : string * list string) (y : option Shape) :
  step st r = Ok (st', y) -> armed st' = true -> armed st = true \/ is_yellow_rg r = true.
Proof.
  destruct r as [op args]. unfold Interpreter.step, is_yellow_rg. simpl.
  destruct (String.eqb op "RG" && bool_decide (args = YELLOW)) eqn:Erg; [auto|].
  unfold armed. destruct (current_line st) as [[|p line]|] eqn:Ecl;
    try (intros E; injection E as <- _; rewrite Ecl; auto).
  intros _ _. left. reflexivity.
Qed.

(** The stroke interpreter yields at most one Shape per yellow RG
    operator (plus one if it starts armed) and at most one per S operator. *)
Theorem interp_yield_bound (ops : list (string * list string)) (st : LineState) :
  (length (fst (interp st ops)) <= length (List.filter is_yellow_rg ops) + (if armed st then 1 else 0))%nat /\
  (length (fst (interp st ops)) <= length (List.filter is_stroke_op ops))%nat.
Proof.
  revert st. induction ops as [|r ops IH]; intros st; [simpl; lia|].
  cbn [Interpreter.interp].
  destruct (step st r) as [[st' y]|e] eqn:Es; [|simpl; lia].
  destruct (interp st' ops) as [ys err] eqn:Ei.
  specialize (IH st'). rewrite Ei in IH. simpl in IH |- *.
  destruct y as [s|].
  - destruct (step_yield _ _ _ _ Es) as (HS & Ha & ->).
    rewrite HS, Ha. simpl in IH |- *.
    destruct (is_yellow_rg r); simpl; lia.
  - destruct (armed st') eqn:Ea'.
    + destruct (step_arms _ _ _ _ Es Ea') as [Ha|Hy].
      * rewrite Ha. destruct (is_yellow_rg r), (is_stroke_op r); simpl; lia.
      * rewrite Hy. destruct (armed st), (is_stroke_op r); simpl; lia.
    + destruct (armed st), (is_yellow_rg r), (is_stroke_op r); simpl; lia.
Qed.
End StrokeCounting.

Section StrokeRendering.
Variable py_float : string -> option Q.
Variable py_int : string -> option Z.
Variable buffer : list Point -> Q -> CapStyle -> JoinStyle -> Shape.
Local Abbreviation step := (Interpreter.step py_float py_int buffer).
Local Abbreviation interp := (Interpreter.interp py_float py_int buffer).

Lemma interp_segments (segs : list (string * string)) (qs : list Point)
    (p : option Point) (line : list (option Point)) (w : option Q) (c : option CapStyle)
    (j : option JoinStyle) (rest : list (string * list string)) :
  Forall2 (fun s q => py_float (fst s) = Some (fst q) /\ py_float (snd s) = Some (snd q)) segs qs ->
  interp (mkLineState (Some (p :: line)) w c j)
         (app (map (fun s => ("l", [fst s; snd s])) segs) rest)
  = interp (mkLineState (Some (app (p :: line) (map Some qs))) w c j) rest.
Proof.
  intros H. revert line. induction H as [|s q segs qs [Hx Hy] _ IH]; intros line.
  - simpl. now rewrite app_nil_r.
  - cbn [map app Interpreter.interp].
    unfold Interpreter.step. cbn -[app].
    unfold arg_float. cbn -[app]. rewrite Hx, Hy. cbn -[app].
    destruct s as [s1 s2]; destruct q as [q1 q2]. simpl in IH |- *.
    rewrite (IH (app line [Some (q1, q2)])). rewrite <- app_assoc. simpl.
    destruct (Interpreter.interp _ _ _ _ rest); reflexivity.
Qed.

(** A complete highlighter stroke (RG yellow, w, J, j, m, at least one l,
    S) yields exactly one Shape: the buffer of the move point followed by
    the line points, with half the width and the given styles; the
    interpreter then continues from the reset state, whatever the state
    before the stroke. *)
Theorem stroke_rendered (st : LineState) (w cap join x y : string)
    (segs : list (string * string)) (rest : list (string * list string))
    (wq xq yq : Q) (ci ji : Z) (cs : CapStyle) (js : JoinStyle) (qs : list Point) :
  py_float w = Some wq -> py_int cap = Some ci -> CAP_STYLES ci = Some cs ->
  py_int join = Some ji -> JOIN_STYLES ji = Some js ->
  py_float x = Some xq -> py_float y = Some yq ->
  Forall2 (fun s q => py_float (fst s) = Some (fst q) /\ py_float (snd s) = Some (snd q)) segs qs ->
  segs <> [] ->
  interp st (app (stroke_ops w cap join x y segs) rest)
  = let '(ys, err) := interp reset_state rest in
    (buffer ((xq, yq) :: qs) (wq / 2) cs js :: ys, err).
Proof.
  intros Hw Hc Hcs Hj Hjs Hx Hy Hsegs Hne.
  unfold stroke_ops. rewrite <- app_assoc. cbn [app].
  simpl. unfold arg_float, arg_int. simpl.
  rewrite Hw. simpl. rewrite Hc. simpl. rewrite Hcs. simpl. rewrite Hj. simpl. rewrite Hjs. simpl.
  rewrite Hx, Hy. simpl.
  rewrite <- app_assoc.
  rewrite (interp_segments segs qs (Some (xq, yq)) [] _ _ _ _ Hsegs).
  assert (Hq : qs <> []) by (destruct Hsegs; congruence).
  assert (Hall : all_points (map Some qs) = Ok qs)
    by (clear; induction qs as [|q qs IH]; [reflexivity|]; simpl; rewrite IH; reflexivity).
  cbn [app Interpreter.interp]. unfold Interpreter.step. simpl.
  destruct qs as [|q qs']; [congruence|]. simpl.
  simpl in Hall. destruct (all_points (map Some qs')) as [pts|e]; [|discriminate].
  injection Hall as <-. simpl.
  unfold reset_state. destruct (Interpreter.interp _ _ _ (mkLineState None None None None) rest); reflexivity.
Qed.
End StrokeRendering.

Section StreamFiltering.
Variable py_float : string -> option Q.
Variable py_int : string -> option Z.
Variable buffer : list Point -> Q -> CapStyle -> JoinStyle -> Shape.
Local Abbreviation step := (Interpreter.step py_float py_int buffer).
Local Abbreviation highlighter_lines := (Interpreter.highlighter_lines py_float py_int buffer).
Local Abbreviation collect_highlight_lines := (Interpreter.collect_highlight_lines py_float py_int buffer).
Local Abbreviation extract_highlight_lines := (Interpreter.extract_highlight_lines py_float py_int buffer).

(** extract_highlight_lines returns the Shapes of the stream xrefs that
    pass the pre-filter, in xref order, flipped to fitz coordinates, when
    none of them raises; if one of them raises, so does the whole call. *)
Theorem extract_highlight_lines_streams (contents : list (option string)) (crop_box : Rect) :
  (Forall (fun c => content_contains_highlight c = true -> snd (highlighter_lines c) = None)
          (stream_contents contents) ->
   extract_highlight_lines contents crop_box
   = Ok (map (coordinate_transformer crop_box)
             (concat (map (fun c => fst (highlighter_lines c))
                          (List.filter content_contains_highlight (stream_contents contents)))))) /\
  (forall c e, In c (stream_contents contents) -> content_contains_highlight c = true ->
     snd (highlighter_lines c) = Some e ->
     exists e', extract_highlight_lines contents crop_box = Raise e').
Proof.
  assert (Hc : (Forall (fun c => content_contains_highlight c = true -> snd (highlighter_lines c) = None)
                 (stream_contents contents) ->
               collect_highlight_lines contents
               = Ok (concat (map (fun c => fst (highlighter_lines c))
                         (List.filter content_contains_highlight (stream_contents contents))))) /\
              (forall c e, In c (stream_contents contents) -> content_contains_highlight c = true ->
                 snd (highlighter_lines c) = Some e ->
                 exists e', collect_highlight_lines contents = Raise e')).
  { induction contents as [|[c|] rest [IH1 IH2]]; simpl.
    - split; [reflexivity | intros ? ? []].
    - unfold stream_contents in *. simpl.
      destruct (content_contains_highlight c) eqn:Ec; simpl.
      + destruct (Interpreter.highlighter_lines _ _ _ c) as [ys [e|]] eqn:Eh; simpl.
        * split; [intros Hf; inversion Hf as [|? ? Hc0]; subst; rewrite Eh in Hc0;
                  specialize (Hc0 Ec); discriminate|].
          intros. now exists e.
        * split.
          -- intros Hf. inversion Hf; subst. rewrite IH1 by assumption. reflexivity.
          -- intros c' e' [<-|Hin] Hc' He'; [rewrite Eh in He'; discriminate|].
             destruct (IH2 c' e' Hin Hc' He') as [e'' ->]. now exists e''.
      + split.
        * intros Hf. inversion Hf; subst. now apply IH1.
        * intros c' e' [<-|Hin] Hc' He'; [congruence|]. now apply (IH2 c' e').
    - unfold stream_contents in *. simpl. split; assumption. }
  destruct Hc as [H1 H2]. unfold Interpreter.extract_highlight_lines. split.
  - intros Hf. rewrite (H1 Hf). reflexivity.
  - intros c e Hin Hcc He. destruct (H2 c e Hin Hcc He) as [e' ->]. now exists e'.
Qed.

(** The textual pre-filter and the tokenizer disagree on whitespace: a
    stream whose yellow colour operands are separated by a newline fails
    the pre-filter and contributes no Shape, although highlighter_lines
    yields a stroke for it. *)
Theorem prefilter_misses_newline_stroke :
  content_contains_highlight newline_yellow_stream = false /\
  (forall q0 q1 w : Q, py_float "0" = Some q0 -> py_float "1" = Some q1 ->
   py_float "2" = Some w -> py_int "1" = Some 1%Z ->
   highlighter_lines newline_yellow_stream
   = ([buffer [(q0, q0); (q1, q1)] (w / 2) CapRound JoinRound], None) /\
   extract_highlight_lines [Some newline_yellow_stream] (mkRect 0 0 0 0) = Ok []).
Proof.
  split; [reflexivity|].
  intros q0 q1 w H0 H1 H2 Hi. split; [|reflexivity].
  unfold Interpreter.highlighter_lines. vm_compute tokenize_graphics.
  simpl. unfold arg_float, arg_int. simpl. rewrite H2, Hi. simpl. rewrite H0, H1. simpl. reflexivity.
Qed.
End StreamFiltering.

Section RunMergerFacts.

Lemma groupby_filter {A} (key : A -> bool) (l : list A) :
  concat (map snd (List.filter fst (groupby key l))) = List.filter key l.
Proof.
  induction l as [|x l IH]; [reflexivity|].
  change (groupby key (x :: l)) with (group_step key x (groupby key l)).
  simpl. unfold group_step.
  destruct (groupby key l) as [|[k g] rest] eqn:E.
  - simpl in *. rewrite <- IH. destruct (key x); reflexivity.
  - destruct (Bool.eqb (key x) k) eqn:Ek.
    + apply Bool.eqb_prop in Ek. subst k. simpl in *.
      destruct (key x); simpl in *; [f_equal|]; exact IH.
    + simpl in *. apply Bool.eqb_false_iff in Ek.
      destruct (key x), k; try congruence; simpl in *; try f_equal; exact IH.
Qed.

Lemma groupby_concat {A} (key : A -> bool) (l : list A) :
  concat (map snd (groupby key l)) = l.
Proof.
  induction l as [|x l IH]; [reflexivity|].
  change (groupby key (x :: l)) with (group_step key x (groupby key l)).
  unfold group_step. destruct (groupby key l) as [|[k g] rest]; simpl in *.
  - now rewrite <- IH.
  - destruct (Bool.eqb (key x) k); simpl; now rewrite <- IH.
Qed.

Lemma groupby_nonempty {A} (key : A -> bool) (l : list A) :
  Forall (fun kg => snd kg <> []) (groupby key l).
Proof.
  induction l as [|x l IH]; [constructor|].
  change (groupby key (x :: l)) with (group_step key x (groupby key l)).
  unfold group_step. destruct (groupby key l) as [|[k g] rest].
  - repeat constructor. discriminate.
  - inversion IH; subst. destruct (Bool.eqb (key x) k); repeat constructor; auto; discriminate.
Qed.

Lemma groupby_alternates {A} (key : A -> bool) (l : list A) : keys_alternate (groupby key l).
Proof.
  induction l as [|x l IH]; [exact I|].
  change (groupby key (x :: l)) with (group_step key x (groupby key l)).
  unfold group_step. destruct (groupby key l) as [|[k g] rest] eqn:E; [exact I|].
  destruct (Bool.eqb (key x) k) eqn:Ek.
  - destruct rest; simpl in *; auto.
  - split; [|exact IH]. simpl. intros Heq. rewrite Heq, Bool.eqb_reflx in Ek. discriminate.
Qed.

Lemma groupby_singletons {A} (l : list (bool * A)) :
  keys_alternate l -> groupby fst l = map (fun x => (fst x, [x])) l.
Proof.
  induction l as [|x l IH]; [reflexivity|]. intros Ha.
  change (groupby fst (x :: l)) with (group_step fst x (groupby fst l)).
  destruct l as [|y l]; [reflexivity|].
  destruct Ha as [Hxy Ha]. rewrite (IH Ha). simpl.
  destruct (Bool.eqb (fst x) (fst y)) eqn:E; [|reflexivity].
  apply Bool.eqb_prop in E. contradiction.
Qed.

Lemma map_fst_concat_filter (ws : list flagged_word) :
  concat (map snd (List.filter fst (runs ws))) = map fst (List.filter snd ws).
Proof.
  unfold runs. rewrite <- (groupby_filter snd ws).
  induction (groupby snd ws) as [|[k g] rest IH]; [reflexivity|].
  simpl. destruct k; simpl; [rewrite map_app, IH|]; auto.
Qed.

Lemma merged_runs_concat (ms : list (bool * list string)) :
  concat (merged_runs ms) = concat (map snd (List.filter fst ms)).
Proof.
  unfold merged_runs. rewrite <- (groupby_filter fst ms).
  induction (List.filter fst (groupby fst ms)) as [|[k g] rest IH]; [reflexivity|].
  simpl. rewrite IH, map_app, concat_app. reflexivity.
Qed.

Lemma runs_concat (ws : list flagged_word) : concat (map snd (runs ws)) = map fst ws.
Proof.
  unfold runs. rewrite <- (groupby_concat snd ws) at 2.
  induction (groupby snd ws) as [|[k g] rest IH]; [reflexivity|].
  simpl. rewrite IH, map_app. reflexivity.
Qed.

Lemma filter_concat_sublist (f : bool * list string -> bool) (rs : list (bool * list string)) :
  concat (map snd (List.filter f rs)) `sublist_of` concat (map snd rs).
Proof.
  induction rs as [|r rs IH]; simpl; [constructor|].
  destruct (f r); simpl; [now apply sublist_app|]. now apply sublist_inserts_l.
Qed.

Lemma marked_superset (rs : list (bool * list string)) (k : Z) :
  concat (map snd (List.filter fst rs))
  `sublist_of` concat (map snd (List.filter fst (marked_skips rs k))).
Proof.
  induction rs as [|[sel run] rs IH]; simpl; [constructor|].
  destruct sel; simpl; [now apply sublist_app|].
  destruct (Z.of_nat (length run) <=? k)%Z; simpl; [now apply sublist_inserts_l | exact IH].
Qed.

(** Every highlighted word is in the output, in order, and the output
    words, concatenated, are a sublist of the page's words: nothing is
    duplicated or reordered. *)
Theorem extract_word_runs_sublist (ws : list flagged_word) (max_skip_len : Z) :
  map fst (List.filter snd ws) `sublist_of` concat (extract_word_runs ws max_skip_len) /\
  concat (extract_word_runs ws max_skip_len) `sublist_of` map fst ws.
Proof.
  unfold extract_word_runs. rewrite merged_runs_concat. split.
  - rewrite <- map_fst_concat_filter. apply marked_superset.
  - rewrite <- runs_concat.
    assert (E : map snd (marked_skips (runs ws) max_skip_len) = map snd (runs ws)).
    { unfold marked_skips. rewrite map_map. apply map_ext. intros [? ?]; reflexivity. }
    rewrite <- E. apply filter_concat_sublist.
Qed.

Lemma runs_nonempty (ws : list flagged_word) : Forall (fun r => snd r <> []) (runs ws).
Proof.
  unfold runs. pose proof (groupby_nonempty snd ws) as H.
  induction H as [|[k g] rest Hg _ IH]; simpl; constructor; auto.
  simpl in *. destruct g; simpl; congruence.
Qed.

(** No output run is empty. *)
Theorem extract_word_runs_nonempty (ws : list flagged_word) (max_skip_len : Z) :
  Forall (fun run => run <> []) (extract_word_runs ws max_skip_len).
Proof.
  unfold extract_word_runs, merged_runs.
  set (ms := marked_skips (runs ws) max_skip_len).
  assert (Hms : Forall (fun r => snd r <> []) ms).
  { unfold ms, marked_skips. pose proof (runs_nonempty ws) as H.
    induction H as [|[sel run] rest Hr _ IH]; simpl; constructor; auto. }
  assert (Hg : Forall (fun kg => snd kg <> [] /\ Forall (fun r => snd r <> []) (snd kg))
                 (groupby fst ms)).
  { pose proof (groupby_nonempty fst ms) as Hne. pose proof (groupby_concat fst ms) as Hc.
    apply List.Forall_forall. intros [k g] Hin. split.
    - rewrite List.Forall_forall in Hne. exact (Hne _ Hin).
    - rewrite List.Forall_forall in Hms |- *. intros r Hr. apply Hms.
      rewrite <- Hc. apply in_concat. exists g. split; [|exact Hr].
      apply in_map_iff. exists (k, g). auto. }
  apply List.Forall_forall. intros run Hin. apply in_map_iff in Hin as ([k g] & <- & Hin).
  apply filter_In in Hin as [Hin _]. rewrite List.Forall_forall in Hg.
  destruct (Hg _ Hin) as [Hne Hall]. simpl in *.
  destruct g as [|r g]; [congruence|]. inversion Hall; subst. simpl.
  destruct (snd r); [congruence|]. discriminate.
Qed.

(** With max_skip_len below 1 no gap is bridged: the output runs are
    exactly the maximal blocks of highlighted words. *)
Theorem no_skips_below_one (ws : list flagged_word) (max_skip_len : Z) :
  (max_skip_len < 1)%Z ->
  extract_word_runs ws max_skip_len = map snd (List.filter fst (runs ws)).
Proof.
  intros Hk. unfold extract_word_runs.
  assert (Em : marked_skips (runs ws) max_skip_len = runs ws).
  { unfold marked_skips. pose proof (runs_nonempty ws) as H.
    revert H. generalize (runs ws). intros rs H.
    induction H as [|[sel run] rest Hr _ IH]; [reflexivity|]. simpl in Hr |- *.
    rewrite IH. destruct run as [|w run]; [congruence|].
    replace (Z.of_nat (length (w :: run)) <=? max_skip_len)%Z with false
      by (symmetry; apply Z.leb_gt; simpl; lia).
    rewrite orb_false_r. reflexivity. }
  rewrite Em. unfold merged_runs.
  assert (Ha : keys_alternate (runs ws)).
  { unfold runs. pose proof (groupby_alternates snd ws) as H.
    induction (groupby snd ws) as [|[k g] rest IH]; [exact I|].
    destruct rest as [|[k' g'] rest]; [exact I|]. destruct H as [H1 H2]. split; [exact H1|].
    apply IH. exact H2. }
  rewrite (groupby_singletons _ Ha).
  revert Ha. generalize (runs ws). intros rs.
  induction rs as [|[sel run] rest IH]; intros Ha; [reflexivity|].
  assert (Hr : keys_alternate rest) by (destruct rest; [exact I | apply Ha]).
  simpl. destruct sel; simpl.
  - rewrite app_nil_r. f_equal. apply IH. exact Hr.
  - apply IH. exact Hr.
Qed.

End RunMergerFacts.

Section PageLoopFacts.
Variable Page Pixmap : Type.
Variable page_number : Page -> Z.
Variable page_highlight_lines : Page -> Result (list Shape).
Variable merge_highlight_lines : list Shape -> Result (list Shape).
Variable extract_clip : Page -> Shape -> Result Pixmap.
Variable extract_text_highlights :
  list Shape -> Page -> WordSelectionMethod -> Z -> Result (list string).

Local Abbreviation process_page :=
  (Pipeline.process_page Page Pixmap page_number page_highlight_lines
     merge_highlight_lines extract_clip extract_text_highlights).
Local Abbreviation process_pages :=
  (Pipeline.process_pages Page Pixmap page_number page_highlight_lines
     merge_highlight_lines extract_clip extract_text_highlights).
Local Abbreviation extract_highlights :=
  (Pipeline.extract_highlights Page Pixmap page_number page_highlight_lines
     merge_highlight_lines extract_clip extract_text_highlights).

Lemma extend_at_keys {A} (d : gmap Z (list A)) (key n : Z) (xs : list A) :
  is_Some (extend_at d key xs !! n) -> n = key \/ is_Some (d !! n).
Proof.
  unfold extend_at. intros H. destruct (decide (n = key)) as [->|Hne]; [now left|].
  right. rewrite lookup_insert_ne in H by congruence. exact H.
Qed.

Lemma process_page_keys (k : Z) (name : string) (thr : Q) (t t' : gmap Z (list string))
    (c c' : gmap Z (list Pixmap)) (page : Page) :
  process_page k name thr (t, c) page = Ok (t', c') ->
  (forall n, is_Some (t' !! n) -> n = page_number page + 1 \/ is_Some (t !! n))%Z /\
  (forall n, is_Some (c' !! n) -> n = page_number page + 1 \/ is_Some (c !! n))%Z.
Proof.
  unfold Pipeline.process_page.
  destruct (page_highlight_lines page) as [lines|e]; cbn [mbind result_bind]; [|discriminate].
  destruct lines as [|l ls].
  { intros H. injection H as <- <-. split; intros; now right. }
  destruct (merge_highlight_lines (l :: ls)) as [polys|e]; cbn [mbind result_bind]; [|discriminate].
  destruct (classify_highlights polys thr) as [tp sp].
  assert (Hc : forall c'', (match sp with
                           | [] => Ok c
                           | _ :: _ => sel ← mapM (extract_clip page) sp;
                                       Ok (extend_at c (page_number page + 1) sel)
                           end) = Ok c'' ->
               forall n, is_Some (c'' !! n) -> n = (page_number page + 1)%Z \/ is_Some (c !! n)).
  { intros c'' Hm n Hn. destruct sp as [|s sp].
    - injection Hm as <-. now right.
    - destruct (mapM (extract_clip page) (s :: sp)); cbn [mbind result_bind] in Hm; [|discriminate].
      injection Hm as <-. eapply extend_at_keys; exact Hn. }
  destruct (match sp with
            | [] => Ok c
            | _ :: _ => sel ← mapM (extract_clip page) sp;
                        Ok (extend_at c (page_number page + 1) sel)
            end) as [c''|e] eqn:Ec; cbn [mbind result_bind]; [|discriminate].
  specialize (Hc c'' eq_refl).
  destruct tp as [|p tp].
  - intros H. injection H as <- <-. split; [intros; now right | exact Hc].
  - destruct (lookup_method name); cbn [mbind result_bind]; [|discriminate].
    destruct (extract_text_highlights _ _ _ _); cbn [mbind result_bind]; [|discriminate].
    intros H. injection H as <- <-. split; [intros n Hn; eapply extend_at_keys; exact Hn | exact Hc].
Qed.

(** Every key of the two result dicts is page.number + 1 of some page of
    the document. *)
Theorem extract_highlights_keys (doc : list Page) (k : Z) (name : string) (thr : Q)
    (t : gmap Z (list string)) (c : gmap Z (list Pixmap)) :
  extract_highlights doc k name thr = Ok (t, c) ->
  (forall n, is_Some (t !! n) -> exists page, In page doc /\ n = (page_number page + 1)%Z) /\
  (forall n, is_Some (c !! n) -> exists page, In page doc /\ n = (page_number page + 1)%Z).
Proof.
  unfold Pipeline.extract_highlights.
  assert (G : forall doc (t0 : gmap Z (list string)) (c0 : gmap Z (list Pixmap)) t c,
    process_pages k name thr (t0, c0) doc = Ok (t, c) ->
    (forall n, is_Some (t !! n) -> is_Some (t0 !! n) \/ exists page, In page doc /\ n = (page_number page + 1)%Z) /\
    (forall n, is_Some (c !! n) -> is_Some (c0 !! n) \/ exists page, In page doc /\ n = (page_number page + 1)%Z)).
  { clear. induction doc as [|page doc IH]; intros t0 c0 t c H.
    - simpl in H. injection H as <- <-. split; intros; now left.
    - cbn [Pipeline.process_pages] in H. destruct (process_page k name thr (t0, c0) page) as [[t1 c1]|e] eqn:E;
        cbn [mbind result_bind] in H; [|discriminate].
      destruct (process_page_keys _ _ _ _ _ _ _ _ E) as [K1 K2].
      destruct (IH _ _ _ _ H) as [J1 J2]. split.
      + intros n Hn. destruct (J1 n Hn) as [Hn1|(p & Hp & ->)]; [|right; exists p; split; [now right | reflexivity]].
        destruct (K1 n Hn1) as [->|Hn0]; [right; exists page; split; [now left | reflexivity] | now left].
      + intros n Hn. destruct (J2 n Hn) as [Hn1|(p & Hp & ->)]; [|right; exists p; split; [now right | reflexivity]].
        destruct (K2 n Hn1) as [->|Hn0]; [right; exists page; split; [now left | reflexivity] | now left]. }
  intros H. destruct (G _ _ _ _ _ H) as [G1 G2]. split.
  - intros n Hn. destruct (G1 n Hn) as [Hn0|Hp]; [|exact Hp]. rewrite lookup_empty in Hn0. now destruct Hn0.
  - intros n Hn. destruct (G2 n Hn) as [Hn0|Hp]; [|exact Hp]. rewrite lookup_empty in Hn0. now destruct Hn0.
Qed.

Lemma process_pages_app (k : Z) (name : string) (thr : Q) (acc : Acc Pixmap) (d1 d2 : list Page) :
  process_pages k name thr acc (app d1 d2)
  = (acc' ← process_pages k name thr acc d1; process_pages k name thr acc' d2).
Proof.
  revert acc. induction d1 as [|p d1 IH]; intros acc; [reflexivity|].
  simpl. destruct (process_page k name thr acc p); cbn [mbind result_bind]; [apply IH | reflexivity].
Qed.

(** A page without highlighter lines has no effect on the result. *)
Theorem pages_without_lines_ignored (doc1 doc2 : list Page) (page : Page)
    (k : Z) (name : string) (thr : Q) :
  page_highlight_lines page = Ok [] ->
  extract_highlights (app doc1 (page :: doc2)) k name thr = extract_highlights (app doc1 doc2) k name thr.
Proof.
  intros H. unfold Pipeline.extract_highlights. rewrite !process_pages_app.
  destruct (process_pages k name thr (∅, ∅) doc1) as [acc|e]; cbn [mbind result_bind]; [|reflexivity].
  simpl. unfold Pipeline.process_page at 1. destruct acc as [t c]. rewrite H. reflexivity.
Qed.

(** The text dict after one page: unchanged, or extended at the page's
    key. *)
Lemma process_page_text (k : Z) (name : string) (thr : Q) (t t' : gmap Z (list string))
    (c c' : gmap Z (list Pixmap)) (page : Page) :
  process_page k name thr (t, c) page = Ok (t', c') ->
  t' = t \/ exists xs, t' = extend_at t (page_number page + 1) xs.
Proof.
  unfold Pipeline.process_page.
  destruct (page_highlight_lines page) as [lines|e]; cbn [mbind result_bind]; [|discriminate].
  destruct lines as [|l ls].
  { intros H. injection H as <- <-. now left. }
  destruct (merge_highlight_lines (l :: ls)) as [polys|e]; cbn [mbind result_bind]; [|discriminate].
  destruct (classify_highlights polys thr) as [tp sp].
  destruct (match sp with
            | [] => Ok c
            | _ :: _ => sel ← mapM (extract_clip page) sp;
                        Ok (extend_at c (page_number page + 1) sel)
            end) as [c''|e]; cbn [mbind result_bind]; [|discriminate].
  destruct tp as [|p tp].
  - intros H. injection H as <- <-. now left.
  - destruct (lookup_method name); cbn [mbind result_bind]; [|discriminate].
    destruct (extract_text_highlights _ _ _ _) as [xs|e]; cbn [mbind result_bind]; [|discriminate].
    intros H. injection H as <- <-. right. now exists xs.
Qed.

Lemma process_pages_text (k : Z) (name : string) (thr : Q) (doc : list Page) (n : Z) :
  forall (t t' : gmap Z (list string)) (c c' : gmap Z (list Pixmap)),
  process_pages k name thr (t, c) doc = Ok (t', c') ->
  (is_Some (t !! n) -> is_Some (t' !! n)) /\
  ((forall p, In p doc -> page_number p + 1 <> n)%Z -> t' !! n = t !! n).
Proof.
  induction doc as [|page doc IH]; intros t t' c c' H.
  { simpl in H. injection H as <- <-. tauto. }
  cbn [Pipeline.process_pages] in H.
  destruct (process_page k name thr (t, c) page) as [[t1 c1]|e] eqn:E;
    cbn [mbind result_bind] in H; [|discriminate].
  destruct (IH _ _ _ _ H) as [G O].
  assert (Hstep : (is_Some (t !! n) -> is_Some (t1 !! n)) /\
                  ((page_number page + 1 <> n)%Z -> t1 !! n = t !! n)).
  { destruct (process_page_text _ _ _ _ _ _ _ _ E) as [->|[xs ->]]; [tauto|].
    unfold extend_at. split.
    - intros Hs. destruct (decide (n = page_number page + 1)%Z) as [->|Hne].
      + rewrite lookup_insert_eq. now eexists.
      + now rewrite lookup_insert_ne by congruence.
    - intros Hne. now rewrite lookup_insert_ne by congruence. }
  split.
  - intros Hs. apply G. now apply Hstep.
  - intros Hall. rewrite O by (intros p Hp; apply Hall; now right).
    apply Hstep. apply Hall. now left.
Qed.

(** A page with Textual polygons whose text extraction selects no run
    still gets an entry in the text dict; when no other page of the
    document has its number, that entry is the empty list. *)
Theorem empty_text_page_listed (doc1 doc2 : list Page) (page : Page) (k : Z) (name : string)
    (thr : Q) (lines polys : list Shape) (clips : list Pixmap) (m : WordSelectionMethod)
    (t : gmap Z (list string)) (c : gmap Z (list Pixmap)) :
  page_highlight_lines page = Ok lines -> lines <> [] ->
  merge_highlight_lines lines = Ok polys ->
  fst (classify_highlights polys thr) <> [] ->
  mapM (extract_clip page) (snd (classify_highlights polys thr)) = Ok clips ->
  lookup_method name = Ok m ->
  extract_text_highlights (fst (classify_highlights polys thr)) page m k = Ok [] ->
  extract_highlights (app doc1 (page :: doc2)) k name thr = Ok (t, c) ->
  is_Some (t !! (page_number page + 1)%Z) /\
  ((forall p, In p (app doc1 doc2) -> page_number p <> page_number page) ->
   t !! (page_number page + 1)%Z = Some []).
Proof.
  intros El Hne Em Ht Hc Hm Hx. unfold Pipeline.extract_highlights.
  rewrite process_pages_app.
  destruct (process_pages k name thr (∅, ∅) doc1) as [[t0 c0]|e] eqn:E1;
    cbn [mbind result_bind]; [|discriminate].
  assert (Hpage : exists c1, process_page k name thr (t0, c0) page =
                             Ok (extend_at t0 (page_number page + 1) [], c1)).
  { unfold Pipeline.process_page. rewrite El. cbn [mbind result_bind].
    destruct lines as [|l ls]; [congruence|]. rewrite Em. cbn [mbind result_bind].
    destruct (classify_highlights polys thr) as [tp sp]. simpl in Ht, Hc, Hx.
    destruct tp as [|p tp]; [congruence|].
    destruct sp as [|s sp]; cbn [mbind result_bind];
      [|rewrite Hc; cbn [mbind result_bind]];
      rewrite Hm; cbn [mbind result_bind]; rewrite Hx; cbn [mbind result_bind];
      eexists; reflexivity. }
  destruct Hpage as [c1 Hpage].
  cbn [Pipeline.process_pages]. rewrite Hpage. cbn [mbind result_bind]. intros H2.
  destruct (process_pages_text k name thr doc2 (page_number page + 1) _ _ _ _ H2) as [G O].
  unfold extend_at in G, O. rewrite lookup_insert_eq in G, O. split.
  - apply G. now eexists.
  - intros Hall.
    rewrite O by (intros p Hp; assert (page_number p <> page_number page)
                   by (apply Hall; apply in_or_app; now right); lia).
    destruct (process_pages_text k name thr doc1 (page_number page + 1) _ _ _ _ E1) as [_ O1].
    rewrite O1 by (intros p Hp; assert (page_number p <> page_number page)
                    by (apply Hall; apply in_or_app; now left); lia).
    reflexivity.
Qed.
End PageLoopFacts.

(* ------------------------------------------------------------------ *)
(** ** Witnesses of the further properties *)

Section FurtherWitnesses.
Local Open Scope Q_scope.

Lemma area_ratio_boxes_witness :
  word_is_highlighted AREA_RATIO hl_box (mkRect 2 2 4 4) = Ok true /\
  word_is_highlighted AREA_RATIO hl_box (mkRect 20 0 30 5) = Ok false.
Proof.
  split.
  - apply (proj1 (area_ratio_boxes hl_box (mkRect 2 2 4 4)
             ltac:(unfold Qle; simpl; lia) ltac:(unfold Qle; simpl; lia)
             ltac:(unfold Qlt; simpl; lia) ltac:(unfold Qlt; simpl; lia)));
      unfold Qle; simpl; lia.
  - apply (proj2 (area_ratio_boxes hl_box (mkRect 20 0 30 5)
             ltac:(unfold Qle; simpl; lia) ltac:(unfold Qle; simpl; lia)
             ltac:(unfold Qlt; simpl; lia) ltac:(unfold Qlt; simpl; lia))).
    left. unfold Qle; simpl; lia.
Defined.

Lemma stroke_rendered_witness :
  interp decimal_float decimal_int outline init_state
    (app (stroke_ops "12" "1" "1" "0" "0" [("10", "0")]) [])
  = ([outline [(0, 0); (10, 0)] (12 / 2) CapRound JoinRound], None).
Proof.
  rewrite (stroke_rendered decimal_float decimal_int outline init_state "12" "1" "1" "0" "0"
             [("10", "0")] [] 12 0 0 1%Z 1%Z CapRound JoinRound [(10, 0)]);
    [reflexivity | reflexivity | reflexivity | reflexivity | reflexivity | reflexivity
    | reflexivity | reflexivity | repeat constructor | discriminate].
Defined.

Lemma extract_highlight_lines_streams_witness :
  extract_highlight_lines decimal_float decimal_int outline
    [None; Some "q 1 0.952941 0.658824 RG 12 w 1 J 1 j 0 0 m 10 0 l S Q"; Some "q Q"]
    (mkRect 0 0 100 100)
  = Ok [coordinate_transformer (mkRect 0 0 100 100)
          (outline [(0, 0); (10, 0)] (12 / 2) CapRound JoinRound)].
Proof.
  rewrite (proj1 (extract_highlight_lines_streams decimal_float decimal_int outline _ _)).
  - reflexivity.
  - repeat constructor.
Defined.

Lemma prefilter_misses_newline_stroke_witness :
  highlighter_lines decimal_float decimal_int outline newline_yellow_stream
  = ([outline [(0, 0); (1, 1)] (2 / 2) CapRound JoinRound], None) /\
  extract_highlight_lines decimal_float decimal_int outline
    [Some newline_yellow_stream] (mkRect 0 0 0 0) = Ok [].
Proof.
  apply (proj2 (prefilter_misses_newline_stroke decimal_float decimal_int outline) 0 1 2);
    reflexivity.
Defined.

End FurtherWitnesses.

Lemma no_skips_below_one_witness :
  extract_word_runs example_words 0 = [["w1"; "w2"]; ["w6"; "w7"]].
Proof.
  rewrite (no_skips_below_one example_words 0 ltac:(lia)). reflexivity.
Defined.

Lemma extract_highlights_keys_witness :
  exists page, In page [(0%Z, []); (1%Z, [loop_shape])] /\ 2%Z = (fst page + 1)%Z.
Proof.
  apply (proj2 (extract_highlights_keys (Z * list Shape) Shape fst (fun p => Ok (snd p)) Ok
           (fun _ s => Ok s) (fun _ _ _ _ => Ok ["highlighted text"])
           [(0%Z, []); (1%Z, [loop_shape])] 3 "CENTROID" 1000 ∅ {[2%Z := [loop_shape]]}
           eq_refl) 2%Z).
  eexists. reflexivity.
Defined.

Lemma pages_without_lines_ignored_witness :
  example_extract [(0%Z, [stroke_shape]); (1%Z, []); (2%Z, [loop_shape])] 3 "CENTROID" 1000
  = example_extract [(0%Z, [stroke_shape]); (2%Z, [loop_shape])] 3 "CENTROID" 1000.
Proof.
  apply (pages_without_lines_ignored (Z * list Shape) Shape fst (fun p => Ok (snd p)) Ok
           (fun _ s => Ok s) (fun _ _ _ _ => Ok ["highlighted text"])
           [(0%Z, [stroke_shape])] [(2%Z, [loop_shape])] (1%Z, [])).
  reflexivity.
Defined.

Lemma empty_text_page_listed_witness :
  ({[5%Z := []]} : gmap Z (list string)) !! 5%Z = Some [].
Proof.
  refine (proj2 (empty_text_page_listed (Z * list Shape) Shape fst (fun p => Ok (snd p)) Ok
           (fun _ s => Ok s) (fun _ _ _ _ => Ok []) [(3%Z, [loop_shape])] [] (4%Z, [stroke_shape])
           3 "AREA_RATIO" 1000 [stroke_shape] [stroke_shape] [] AREA_RATIO
           {[5%Z := []]} {[4%Z := [loop_shape]]} _ _ _ _ _ _ _ _) _);
    try reflexivity; try discriminate.
  intros p [<-|[]]. discriminate.
Defined.
